(** * Invoice PDF data extractor ([invoices2.py]): shallow embedding

    The module reads a batch of PDF invoices, pulls an invoice number, an
    issue date and a monetary value out of each text with ordered lists of
    regular expressions, and writes one spreadsheet row per file.

    Conventions of the embedding.
    - A Python [str] is a [string] whose characters are code points below
      256 (one [ascii] per code point, Latin-1).  On that range [\d] is
      exactly [0-9], and case folding under [re.IGNORECASE] is the Latin-1
      lower-casing [lower] below.
    - A Python [float] is a binary64 value in the form of [spec_float]
      (precision 53, [emax] 1024); [float(s)] is the correctly rounded
      quotient computed by [SFdiv].
    - An exception is a value [exn]; code that may raise returns a
      [result].  Printing is recorded as a list of [event]s and is taken
      to succeed.
    - The PDF reader, the file system, the clock and the spreadsheet
      library are collaborators gathered in the record [Env]. *)

From Stdlib Require Import ZArith NArith String Ascii List Bool Lia.
From Stdlib Require Import Floats.SpecFloat.
From stdpp Require Import gmap strings list.

Open Scope string_scope.

(* ===================================================================== *)
(** ** Exceptions and results *)
(* ===================================================================== *)

Inductive exn_kind :=
  | ValueError | IndexError | AttributeError | OtherException.

(** [str(e)] is [exn_msg e]. *)
Record exn := Exn { exn_kind_of : exn_kind; exn_msg : string }.

Inductive result (A : Type) :=
  | Ok (a : A)
  | Raise (e : exn).
Arguments Ok {A} a.
Arguments Raise {A} e.

Definition is_ok {A} (r : result A) : bool :=
  match r with Ok _ => true | Raise _ => false end.

(** The exception classes below [Exception] that the program names in an
    [except] clause: [Exception] itself catches every [exn]. *)
Definition is_ValueError (e : exn) : bool :=
  match exn_kind_of e with ValueError => true | _ => false end.

(* ===================================================================== *)
(** ** Characters and strings *)
(* ===================================================================== *)

Definition code (c : ascii) : nat := nat_of_ascii c.

Definition between (lo hi : nat) (c : ascii) : bool :=
  (lo <=? code c)%nat && (code c <=? hi)%nat.

(** [\d] on code points below 256. *)
Definition is_digit (c : ascii) : bool := between 48 57 c.

(** [\s] on code points below 256: the characters for which
    [str.isspace] holds. *)
Definition is_space (c : ascii) : bool :=
  between 9 13 c || between 28 32 c
  || (code c =? 133)%nat || (code c =? 160)%nat.

(** Lower-casing of code points below 256: [A-Z] and the accented
    capitals [U+00C0..U+00DE] other than the multiplication sign. *)
Definition lower (c : ascii) : ascii :=
  if between 65 90 c
     || (between 192 222 c && negb (code c =? 215)%nat)
  then ascii_of_nat (code c + 32)
  else c.

Definition ascii_eqb (a b : ascii) : bool := Ascii.eqb a b.
Arguments ascii_eqb : simpl never.

Fixpoint str_filter (keep : ascii -> bool) (s : string) : string :=
  match s with
  | EmptyString => EmptyString
  | String c s' =>
      if keep c then String c (str_filter keep s') else str_filter keep s'
  end.

(** [c in s] for a one-character [c]. *)
Fixpoint str_in (c : ascii) (s : string) : bool :=
  match s with
  | EmptyString => false
  | String d s' => ascii_eqb c d || str_in c s'
  end.

(** [s.replace(old, new)] for a one-character [old]. *)
Fixpoint str_replace (old : ascii) (new : string) (s : string) : string :=
  match s with
  | EmptyString => EmptyString
  | String c s' =>
      if ascii_eqb c old then new ++ str_replace old new s'
      else String c (str_replace old new s')
  end.

Fixpoint str_forall (p : ascii -> bool) (s : string) : bool :=
  match s with
  | EmptyString => true
  | String c s' => p c && str_forall p s'
  end.

(** Truthiness of a [str]: non-empty. *)
Definition str_truthy (s : string) : bool :=
  match s with EmptyString => false | String _ _ => true end.

(** The first [n] characters of [s] (a slice [s[:n]]). *)
Fixpoint str_take (n : nat) (s : string) : string :=
  match n, s with
  | S n', String c s' => String c (str_take n' s')
  | _, _ => EmptyString
  end.

(* ===================================================================== *)
(** ** Floats *)
(* ===================================================================== *)

Definition float := spec_float.

Definition prec : Z := 53.
Definition emax : Z := 1024.

(** The binary64 nearest to [m / 10^k] (ties to even), infinite on
    overflow. *)
Definition float_of_decimal (m : N) (k : nat) : float :=
  match m with
  | N0 => S754_zero false
  | Npos p =>
      SFdiv prec emax
        (S754_finite false p 0)
        (S754_finite false (Z.to_pos (10 ^ Z.of_nat k)) 0)
  end.

(** Truthiness of a [float]: [bool(x)] is [x != 0.0]. *)
Definition float_truthy (x : float) : bool :=
  match x with S754_zero _ => false | _ => true end.

(** [s.partition('.')]: the text before the first dot and, when there is a
    dot, the text after it. *)
Fixpoint split_dot (s : string) : string * option string :=
  match s with
  | EmptyString => (EmptyString, None)
  | String c s' =>
      if ascii_eqb c "." then (EmptyString, Some s')
      else let '(a, b) := split_dot s' in (String c a, b)
  end.

(** The number written by a string of decimal digits; [None] when some
    character is not a digit. *)
Fixpoint decimal_value (acc : N) (s : string) : option N :=
  match s with
  | EmptyString => Some acc
  | String c s' =>
      if is_digit c
      then decimal_value (10 * acc + N.of_nat (code c - 48)) s'
      else None
  end.

Definition float_error (s : string) : exn :=
  Exn ValueError ("could not convert string to float: '" ++ s ++ "'").

(** [float(s)] for a string [s] over the alphabet of digits and ['.'], the
    only one [clean_value] passes (lemma [cleaned_alphabet]): the accepted
    forms are [digits], [digits.], [digits.digits] and [.digits].  Every
    other string of that alphabet raises [ValueError].  Strings with other
    characters (signs, exponents, blanks, [inf], [nan]) are outside the
    embedding and are made to raise as well. *)
Definition py_float (s : string) : result float :=
  let '(ip, rest) := split_dot s in
  let fp := match rest with Some t => t | None => EmptyString end in
  if str_truthy (ip ++ fp) then
    match decimal_value 0 (ip ++ fp) with
    | Some m => Ok (float_of_decimal m (String.length fp))
    | None => Raise (float_error s)
    end
  else Raise (float_error s).

(* ===================================================================== *)
(** ** [PDFProcessor.clean_value] *)
(* ===================================================================== *)

(** The character class [[^\d.,]] negated: what [re.sub] keeps. *)
Definition keep_char (c : ascii) : bool :=
  is_digit c || ascii_eqb c "." || ascii_eqb c ",".

Definition clean_value (value_str : option string) : result (option float) :=
  match value_str with
  | None => Ok None
  | Some value_str =>
      if negb (str_truthy value_str) then Ok None
      else
        let cleaned := str_filter keep_char value_str in
        let cleaned :=
          if str_in "," cleaned && str_in "." cleaned
          then str_replace "," "." (str_replace "." "" cleaned)
          else if str_in "," cleaned
               then str_replace "," "." cleaned
               else cleaned in
        match py_float cleaned with
        | Ok x => Ok (Some x)
        | Raise e => if is_ValueError e then Ok None else Raise e
        end
  end.

(* ===================================================================== *)
(** ** Regular expressions: the fragment of [re] the patterns use *)
(* ===================================================================== *)

(** A member of a character set. *)
Inductive item :=
  | IChar (c : ascii)      (* a literal character *)
  | IDigit                 (* [\d] *)
  | ISpace.                (* [\s] *)

(** A compiled pattern.  Capturing groups carry no number: as in [re],
    they are numbered from 1 in the order of their opening parenthesis.
    A non-capturing group [(?:...)] is plain nesting. *)
Inductive regex :=
  | Eps
  | Lit (c : ascii)
  | Class (items : list item)
  | Seq (r1 r2 : regex)
  | Repeat (lo : nat) (hi : option nat) (r : regex)   (* greedy [{lo,hi}] *)
  | Group (r : regex).

(** [re.compile(p).groups] *)
Fixpoint ngroups (r : regex) : nat :=
  match r with
  | Eps | Lit _ | Class _ => 0
  | Seq r1 r2 => ngroups r1 + ngroups r2
  | Repeat _ _ r' => ngroups r'
  | Group r' => S (ngroups r')
  end.

(** Membership of [d] in a set item under [re.IGNORECASE]. *)
Definition item_match (d : ascii) (i : item) : bool :=
  match i with
  | IChar c => ascii_eqb (lower c) (lower d)
  | IDigit => is_digit d
  | ISpace => is_space d
  end.

(** The state of a match attempt: the text still to be read and the
    groups closed so far. *)
Definition cont : Type :=
  string -> gmap nat string -> option (string * gmap nat string).

Definition dec_hi (hi : option nat) : option nat :=
  match hi with Some n => Some (pred n) | None => None end.

Definition hi_reached (hi : option nat) : bool :=
  match hi with Some O => true | _ => false end.

(** A greedy repeat of [step]: [lo] compulsory rounds, then as many more
    as [hi] allows, each tried before the continuation.  A round that
    reads nothing ends the loop.  [fuel] bounds the number of rounds;
    [lo + length s + 1] is enough for a text [s]. *)
Fixpoint repeat_loop (step : string -> gmap nat string -> cont ->
                             option (string * gmap nat string))
    (fuel lo : nat) (hi : option nat)
    (s : string) (cs : gmap nat string) (k : cont)
    : option (string * gmap nat string) :=
  match fuel with
  | O => None
  | S fuel' =>
      match lo with
      | S lo' =>
          step s cs (fun s' cs' => repeat_loop step fuel' lo' (dec_hi hi) s' cs' k)
      | O =>
          if hi_reached hi then k s cs
          else
            match step s cs (fun s' cs' =>
                     if (String.length s' <? String.length s)%nat
                     then repeat_loop step fuel' 0 (dec_hi hi) s' cs' k
                     else None)
            with
            | Some r => Some r
            | None => k s cs
            end
      end
  end.

(** Backtracking match of [r] at the head of [s], in continuation-passing
    style: [k] receives the rest of the text; a [None] from [k] makes the
    matcher try its next alternative.  [base] is the number of groups
    opened to the left of [r]. *)
Fixpoint rmatch (r : regex) (base : nat) (s : string) (cs : gmap nat string)
    (k : cont) {struct r} : option (string * gmap nat string) :=
  match r with
  | Eps => k s cs
  | Lit c =>
      match s with
      | String d s' => if ascii_eqb (lower c) (lower d) then k s' cs else None
      | EmptyString => None
      end
  | Class items =>
      match s with
      | String d s' => if existsb (item_match d) items then k s' cs else None
      | EmptyString => None
      end
  | Seq r1 r2 =>
      rmatch r1 base s cs
        (fun s' cs' => rmatch r2 (base + ngroups r1) s' cs' k)
  | Repeat lo hi r' =>
      repeat_loop (rmatch r' base) (lo + String.length s + 1) lo hi s cs k
  | Group r' =>
      rmatch r' (S base) s cs
        (fun s' cs' =>
           k s' (<[S base := str_take (String.length s - String.length s') s]> cs'))
  end.

(** A match object: the group count of its pattern, the groups that took
    part in the match, and the span. *)
Record Match := mkMatch {
  m_groups : nat;
  m_caps : gmap nat string;
  m_start : nat;
  m_end : nat
}.

Fixpoint search_from (r : regex) (pos : nat) (s : string) : option Match :=
  match rmatch r 0 s ∅ (fun s' cs => Some (s', cs)) with
  | Some (s', cs) =>
      Some (mkMatch (ngroups r) cs pos (pos + (String.length s - String.length s')))
  | None =>
      match s with
      | String _ s' => search_from r (S pos) s'
      | EmptyString => None
      end
  end.

(** [re.search(pattern, text, re.IGNORECASE)] *)
Definition re_search (pattern : regex) (text : string) : option Match :=
  search_from pattern 0 text.

(** [match.group(i)]: [IndexError] when the pattern has no group [i],
    [None] when the group took no part in the match. *)
Definition group (m : Match) (i : nat) : result (option string) :=
  if (i <=? m_groups m)%nat then Ok (m_caps m !! i)
  else Raise (Exn IndexError "no such group").

(** *** Writing patterns *)

Fixpoint lit (s : string) : regex :=
  match s with
  | EmptyString => Eps
  | String c EmptyString => Lit c
  | String c s' => Seq (Lit c) (lit s')
  end.

Fixpoint seq (rs : list regex) : regex :=
  match rs with
  | [] => Eps
  | [r] => r
  | r :: rs' => Seq r (seq rs')
  end.

Definition star (r : regex) : regex := Repeat 0 None r.
Definition plus (r : regex) : regex := Repeat 1 None r.
Definition opt (r : regex) : regex := Repeat 0 (Some 1) r.
Definition rep (lo hi : nat) (r : regex) : regex := Repeat lo (Some hi) r.
Definition times (n : nat) (r : regex) : regex := Repeat n (Some n) r.

Definition digit : regex := Class [IDigit].     (* [\d] *)
Definition spaces : regex := star (Class [ISpace]).   (* [\s*] *)

(* ===================================================================== *)
(** ** [Patterns] *)
(* ===================================================================== *)

(** [U+00FA], the [u] with an acute accent. *)
Definition u_acute : ascii := ascii_of_nat 250.

Module Patterns.

(** [#?\s*:?\s*(\d+)], the tail shared by three of the number patterns. *)
Definition label_tail : list regex :=
  [spaces; opt (Lit "#"); spaces; opt (Lit ":"); spaces; Group (plus digit)].

Definition NUMBER : list regex :=
  [ seq [Lit "#"; spaces; Group (plus digit)];
    seq (lit "Invoice" :: label_tail);
    seq (lit "Fatura" :: label_tail);
    seq [Lit "N"; Class [IChar u_acute; IChar "u"]; lit "mero";
         spaces; opt (Lit ":"); spaces; Group (plus digit)] ].

(** [\d{1,2}[\/\-]\d{1,2}[\/\-]\d{4}] *)
Definition date_body : regex :=
  seq [rep 1 2 digit; Class [IChar "/"; IChar "-"];
       rep 1 2 digit; Class [IChar "/"; IChar "-"];
       times 4 digit].

Definition DATE : list regex :=
  [ seq [lit "Date"; spaces; opt (Lit ":"); spaces; Group date_body];
    seq [lit "Data"; spaces; opt (Lit ":"); spaces; Group date_body];
    Group date_body ].

(** [[\d.,]+] *)
Definition amount : regex :=
  plus (Class [IDigit; IChar "."; IChar ","]).

(** [:?\s*R?\$?\s*([\d.,]+)] after a label and [\s*] *)
Definition money_tail : list regex :=
  [spaces; opt (Lit ":"); spaces; opt (Lit "R"); opt (Lit "$"); spaces;
   Group amount].

Definition VALUE : list regex :=
  [ seq (lit "Total" :: money_tail);
    seq (lit "Valor" :: money_tail);
    seq [Lit "R"; Lit "$"; spaces; Group amount];
    Group (seq [rep 1 3 digit;
                star (seq [Lit "."; times 3 digit]);
                Lit ","; times 2 digit]) ].

End Patterns.

(* ===================================================================== *)
(** ** [PDFProcessor.find_pattern] *)
(* ===================================================================== *)

(** [next((match.group(1) for pattern in patterns if (match := ...)), None)]:
    the generator is advanced until its first item; a pattern that does
    not match yields nothing. *)
Fixpoint find_pattern (text : string) (patterns : list regex)
    : result (option string) :=
  match patterns with
  | [] => Ok None
  | pattern :: rest =>
      match re_search pattern text with
      | Some m => group m 1
      | None => find_pattern text rest
      end
  end.

(* ===================================================================== *)
(** ** [InvoiceData] *)
(* ===================================================================== *)

Record InvoiceData := mkInvoice {
  filename : string;
  number : option string;
  date : option string;
  value : option float;
  status : string
}.

(** [InvoiceData(name)], with the defaults of the dataclass. *)
Definition new_invoice (name : string) : InvoiceData :=
  mkInvoice name None None None "Processado".

Definition set_number (n : option string) (i : InvoiceData) : InvoiceData :=
  mkInvoice (filename i) n (date i) (value i) (status i).
Definition set_date (d : option string) (i : InvoiceData) : InvoiceData :=
  mkInvoice (filename i) (number i) d (value i) (status i).
Definition set_value (v : option float) (i : InvoiceData) : InvoiceData :=
  mkInvoice (filename i) (number i) (date i) v (status i).
Definition set_status (st : string) (i : InvoiceData) : InvoiceData :=
  mkInvoice (filename i) (number i) (date i) (value i) st.

(** A spreadsheet cell value: text or a number. *)
Inductive Cell :=
  | CStr (s : string)
  | CNum (x : float).

(** The sentinel text, with [U+00E3] for its second letter. *)
Definition not_found : string :=
  String "N" (String (ascii_of_nat 227) "o encontrado").

(** [x or default] for an [Optional[str]] *)
Definition str_or (x : option string) (default : string) : Cell :=
  match x with
  | Some s => if str_truthy s then CStr s else CStr default
  | None => CStr default
  end.

(** [x or default] for an [Optional[float]] *)
Definition float_or (x : option float) (default : string) : Cell :=
  match x with
  | Some v => if float_truthy v then CNum v else CStr default
  | None => CStr default
  end.

Definition to_row (self : InvoiceData) : list Cell :=
  [ str_or (number self) not_found;
    str_or (date self) not_found;
    float_or (value self) not_found;
    CStr (filename self);
    CStr (status self) ].

(* ===================================================================== *)
(** ** Collaborators, configuration and the log *)
(* ===================================================================== *)

(** A path is the list of its components; [p.name] is the last one. *)
Definition Path : Type := list string.
Definition path_name (p : Path) : string := List.last p EmptyString.
Definition path_join (p : Path) (child : string) : Path := (p ++ [child])%list.

(** The workbook with its one active sheet: [wb.active] is an alias of
    that sheet, so a write through [ws] is a write to [wb]. *)
Record Workbook := mkWorkbook {
  ws_title : string;
  ws_cells : gmap (nat * nat) Cell       (* (row, column), both from 1 *)
}.

Definition Workbook_new : Workbook := mkWorkbook "Sheet" ∅.

Record Env := mkEnv {
  path_exists : Path -> bool;                       (* [Path.exists] *)
  path_mkdir : Path -> result unit;                 (* [Path.mkdir] *)
  path_glob : Path -> result (list Path);           (* [Path.glob('*.pdf')] *)
  (** [pdfplumber.open] and [page.extract_text] of every page *)
  pdf_pages : Path -> result (list (option string));
  (** the exception [openpyxl] raises for a cell value it refuses *)
  cell_check : Cell -> option exn;
  now_stamp : string;               (* [datetime.now().strftime(...)] *)
  wb_save : Workbook -> Path -> result unit         (* [Workbook.save] *)
}.

Record Config := mkConfig {
  PDF_DIR : Path;
  EXCEL_DIR : Path;
  HEADERS : list (string * string)       (* the dict, in insertion order *)
}.

Definition u_acute_str : string := String u_acute EmptyString.
Definition a_tilde_str : string := String (ascii_of_nat 227) EmptyString.

Definition default_config : Config :=
  mkConfig
    ["C:"; "Users"; "Felipe"; "Documents"; "Projects"; "python_auto"; "invoices_pdf"]
    ["C:"; "Users"; "Felipe"; "Documents"; "Projects"; "python_auto"; "excel_sheets"]
    [ ("A1", "N" ++ u_acute_str ++ "mero da fatura");
      ("B1", "Data de emiss" ++ a_tilde_str ++ "o");
      ("C1", "Valor da fatura");
      ("D1", "Nome do arquivo");
      ("E1", "Status") ].

(** What the program prints and the calls it makes to the sink. *)
Inductive event :=
  | EReadError (name : string) (e : exn)          (* [Erro ao ler ...] *)
  | EDebug (name : string) (n d : option string) (v : option float)
  | EExcelError (e : exn)                         (* [Erro ao criar Excel] *)
  | EPdfDirMissing (p : Path)
  | ENoPdf
  | EProcessing (n : nat)
  | EProcessError (e : exn)                       (* [Erro ao processar PDFs] *)
  | ECallSave (p : Path)                          (* [wb.save(p)] is executed *)
  | ESaved (p : Path)                             (* [Excel salvo] *)
  | ESaveError (e : exn)                          (* [Erro ao salvar] *)
  | ESavedFallback (p : Path).                    (* [Salvo no diretorio atual] *)

(** *** A state monad with exceptions, for the bodies of [try] blocks *)

Definition Try (S A : Type) : Type := S -> S * result A.

Definition ret {S A} (a : A) : Try S A := fun s => (s, Ok a).
Definition bind {S A B} (m : Try S A) (f : A -> Try S B) : Try S B :=
  fun s => match m s with
           | (s', Ok a) => f a s'
           | (s', Raise e) => (s', Raise e)
           end.
Definition lift {S A} (r : result A) : Try S A := fun s => (s, r).
Definition modify {S} (f : S -> S) : Try S unit := fun s => (f s, Ok tt).

Notation "x <- m ;; k" := (bind m (fun x => k))
  (at level 100, m at next level, right associativity).
Notation "m ;;; k" := (bind m (fun _ => k))
  (at level 100, right associativity).

(* ===================================================================== *)
(** ** [PDFProcessor] *)
(* ===================================================================== *)

(** The three pattern lists [process_pdf] reads from [Patterns]. *)
Record PatternSets := mkPatternSets {
  P_NUMBER : list regex;
  P_DATE : list regex;
  P_VALUE : list regex
}.

Definition source_patterns : PatternSets :=
  mkPatternSets Patterns.NUMBER Patterns.DATE Patterns.VALUE.

Definition nl : string := String (ascii_of_nat 10) EmptyString.

(** [sep.join(parts)] *)
Fixpoint str_join (sep : string) (parts : list string) : string :=
  match parts with
  | [] => EmptyString
  | [x] => x
  | x :: rest => x ++ sep ++ str_join sep rest
  end.

Definition text_or_empty (t : option string) : string :=
  match t with
  | Some s => s
  | None => EmptyString
  end.

Section Processor.

Variable env : Env.
Variable config : Config.
Variable patterns : PatternSets.

(** The state of [process_pdf]: the record being filled and the log. *)
Definition print {S} (ev : event) : Try (S * list event) unit :=
  modify (fun st => (fst st, (snd st ++ [ev])%list)).
Definition update {L} (f : InvoiceData -> InvoiceData)
    : Try (InvoiceData * L) unit :=
  modify (fun st => (f (fst st), snd st)).

Definition extract_text (pdf_path : Path) : string * list event :=
  match pdf_pages env pdf_path with
  | Ok pages => (str_join nl (map text_or_empty pages), [])
  | Raise e => (EmptyString, [EReadError (path_name pdf_path) e])
  end.

(** A call of a method that prints and cannot raise. *)
Definition call {S A} (r : A * list event) : Try (S * list event) A :=
  fun st => ((fst st, (snd st ++ snd r)%list), Ok (fst r)).

(** The body of the [try] of [process_pdf]. *)
Definition process_pdf_body (pdf_path : Path)
    : Try (InvoiceData * list event) unit :=
  text <- call (extract_text pdf_path) ;;
  if negb (str_truthy text) then
    update (set_status "Erro: PDF vazio")
  else
    n <- lift (find_pattern text (P_NUMBER patterns)) ;;
    update (set_number n) ;;;
    d <- lift (find_pattern text (P_DATE patterns)) ;;
    update (set_date d) ;;;
    raw_value <- lift (find_pattern text (P_VALUE patterns)) ;;
    v <- lift (clean_value raw_value) ;;
    update (set_value v) ;;;
    print (EDebug (path_name pdf_path) n d v).

(** The record and the lines printed for one file. *)
Definition process_pdf_log (pdf_path : Path) : InvoiceData * list event :=
  match process_pdf_body pdf_path (new_invoice (path_name pdf_path), []) with
  | (st, Ok _) => st
  | ((invoice, out), Raise e) =>
      (set_status ("Erro: " ++ exn_msg e) invoice, out)
  end.

Definition process_pdf (pdf_path : Path) : InvoiceData :=
  fst (process_pdf_log pdf_path).

(** [[self.process_pdf(pdf) for pdf in pdf_files]], with what it prints. *)
Definition process_all (pdf_files : list Path)
    : list InvoiceData * list event :=
  (map process_pdf pdf_files,
   concat (map (fun pdf => snd (process_pdf_log pdf)) pdf_files)).

(** *** The worksheet *)

(** The coordinate of a key such as ['A1']: one capital letter for the
    column and a row number from 1, the form the configuration uses. *)
Definition coordinate (key : string) : option (nat * nat) :=
  match key with
  | String col row =>
      if between 65 90 col && str_truthy row then
        match decimal_value 0 row with
        | Some (Npos r) => Some (Pos.to_nat r, code col - 64)
        | _ => None
        end
      else None
  | EmptyString => None
  end.

(** Assignment of a value to the cell at [(row, column)]. *)
Definition set_cell (rc : nat * nat) (v : Cell) : Try Workbook unit :=
  match cell_check env v with
  | Some e => lift (Raise e)
  | None => modify (fun wb => mkWorkbook (ws_title wb) (<[rc := v]> (ws_cells wb)))
  end.

(** [ws[key] = v] *)
Definition ws_setitem (key : string) (v : Cell) : Try Workbook unit :=
  match coordinate key with
  | Some rc => set_cell rc v
  | None => lift (Raise (Exn ValueError ("invalid cell key " ++ key)))
  end.

(** [for cell, header in self.config.HEADERS.items(): ws[cell] = header] *)
Fixpoint write_headers (items : list (string * string)) : Try Workbook unit :=
  match items with
  | [] => ret tt
  | (cell, header) :: rest =>
      ws_setitem cell (CStr header) ;;; write_headers rest
  end.

(** [for j, value in enumerate(row, start=j): ws.cell(i, j, value)] *)
Fixpoint write_row (i j : nat) (row : list Cell) : Try Workbook unit :=
  match row with
  | [] => ret tt
  | v :: rest => set_cell (i, j) v ;;; write_row i (S j) rest
  end.

(** [for i, invoice in enumerate(invoices, start=i): ...] *)
Fixpoint write_rows (i : nat) (invoices : list InvoiceData) : Try Workbook unit :=
  match invoices with
  | [] => ret tt
  | invoice :: rest =>
      write_row i 1 (to_row invoice) ;;; write_rows (S i) rest
  end.

(** The body of the [try] of [create_excel], run on the new workbook. *)
Definition create_excel_body (invoices : list InvoiceData) : Try Workbook unit :=
  modify (fun wb => mkWorkbook "Invoices" (ws_cells wb)) ;;;
  write_headers (HEADERS config) ;;;
  write_rows 2 invoices.

(** [create_excel]: its value ([None] when the function falls off its
    end) and what it prints.  [Workbook()] itself is taken to succeed,
    so [wb] is bound when the handler returns it. *)
Definition create_excel (invoices : list InvoiceData)
    : option Workbook * list event :=
  match create_excel_body invoices Workbook_new with
  | (_, Ok _) => (None, [])
  | (wb, Raise e) => (Some wb, [EExcelError e])
  end.

(** *** [run] *)

(** The outcome of [wb.save(path)] on the value [create_excel]
    returned: on [None] the attribute lookup raises before the sink is
    reached. *)
Definition save_result (wb : option Workbook) (path : Path) : result unit :=
  match wb with
  | None =>
      Raise (Exn AttributeError "'NoneType' object has no attribute 'save'")
  | Some w => wb_save env w path
  end.

Definition save (wb : option Workbook) (path : Path)
    : Try (list event) unit :=
  modify (fun out => out ++ [ECallSave path])%list ;;;
  lift (save_result wb path).

Definition say (ev : event) : Try (list event) unit :=
  modify (fun out => out ++ [ev])%list.

(** How the first [try] block of [run] ends without an exception: with
    [return False], or at its last line with the three variables bound. *)
Inductive setup :=
  | ReturnFalse
  | Ready (wb : option Workbook) (timestamp : string) (excel_path : Path).

Definition run_setup : Try (list event) setup :=
  if negb (path_exists env (PDF_DIR config)) then
    say (EPdfDirMissing (PDF_DIR config)) ;;; ret ReturnFalse
  else
    lift (path_mkdir env (EXCEL_DIR config)) ;;;
    pdf_files <- lift (path_glob env (PDF_DIR config)) ;;
    match pdf_files with
    | [] => say ENoPdf ;;; ret ReturnFalse
    | _ :: _ =>
        say (EProcessing (List.length pdf_files)) ;;;
        let '(invoices, out1) := process_all pdf_files in
        modify (fun out => out ++ out1)%list ;;;
        let '(wb, out2) := create_excel invoices in
        modify (fun out => out ++ out2)%list ;;;
        let timestamp := now_stamp env in
        ret (Ready wb timestamp
               (path_join (EXCEL_DIR config)
                  ("invoices_" ++ timestamp ++ ".xlsx")))
    end.

(** The second [try] block and its handler. *)
Definition run_save (wb : option Workbook) (timestamp : string)
    (excel_path : Path) : Try (list event) bool :=
  fun out =>
    match (save wb excel_path ;;; say (ESaved excel_path) ;;; ret true) out with
    | (out', Ok b) => (out', Ok b)
    | (out', Raise e) =>
        (say (ESaveError e) ;;;
         let fallback : Path := ["invoices_" ++ timestamp ++ ".xlsx"] in
         save wb fallback ;;;
         say (ESavedFallback fallback) ;;;
         ret true) out'
    end.

(** [run]: the lines printed and calls made, and the value returned or
    the exception that leaves the method. *)
Definition run : list event * result bool :=
  match run_setup [] with
  | (out, Raise e) => (out ++ [EProcessError e], Ok false)%list
  | (out, Ok ReturnFalse) => (out, Ok false)
  | (out, Ok (Ready wb timestamp excel_path)) =>
      run_save wb timestamp excel_path out
  end.

End Processor.

(* ===================================================================== *)
(** ** [main] *)
(* ===================================================================== *)

(** What [main] prints, with the lines and calls of [run] in between. *)
Inductive main_event :=
  | MBanner                 (* [=== Extrator de Faturas PDF ===] *)
  | MRun (ev : event)
  | MDone                   (* [Concluido!] *)
  | MFailed.                (* [Falhou!] *)

(** [main]: the processor is built with the default [Config] and reads the
    lists of [Patterns]; an exception of [run] leaves [main] before its
    last line. *)
Definition main (env : Env) : list main_event * result unit :=
  let '(out, r) := run env default_config source_patterns in
  match r with
  | Ok success =>
      ((MBanner :: map MRun out) ++ [if success then MDone else MFailed], Ok tt)%list
  | Raise e => (MBanner :: map MRun out, Raise e)
  end.

(** The ways the first block of [run] ends the run early. *)
Definition setup_fails (env : Env) (config : Config) : Prop :=
  path_exists env (PDF_DIR config) = false \/
  (exists e, path_mkdir env (EXCEL_DIR config) = Raise e) \/
  (exists e, path_glob env (PDF_DIR config) = Raise e) \/
  path_glob env (PDF_DIR config) = Ok [].

(* ===================================================================== *)
(** ** The value normalizer as the specification words it *)
(* ===================================================================== *)

Module Spec.

(** Step 2: strip every character that is not a digit, ['.'] or [',']. *)
Definition strip (raw : string) : string :=
  str_filter (fun c => is_digit c || ascii_eqb c "." || ascii_eqb c ",") raw.

Definition remove_all (c : ascii) (s : string) : string :=
  str_filter (fun d => negb (ascii_eqb d c)) s.

Fixpoint replace_all (a b : ascii) (s : string) : string :=
  match s with
  | EmptyString => EmptyString
  | String c s' =>
      String (if ascii_eqb c a then b else c) (replace_all a b s')
  end.

(** Step 3: the three cases on the separators present. *)
Definition disambiguate (t : string) : string :=
  match str_in "." t, str_in "," t with
  | true, true => replace_all "," "." (remove_all "." t)
  | false, true => replace_all "," "." t
  | _, false => t
  end.

(** Step 4: parse, absent on failure. *)
Definition parse_decimal (t : string) : option float :=
  match py_float t with
  | Ok x => Some x
  | Raise _ => None
  end.

Definition normalize (raw : string) : option float :=
  parse_decimal (disambiguate (strip raw)).

(** [x] is a finite binary64 no further than half a unit in the last
    place from the fraction [num / den]. *)
Definition nearest64 (num den : Z) (x : float) : bool :=
  match x with
  | S754_finite false m e =>
      bounded prec emax m e &&
      (if (e <? 0)%Z
       then (2 * Z.abs (Zpos m * den - num * 2 ^ (- e)) <=? den)%Z
       else (2 * Z.abs (Zpos m * 2 ^ e * den - num) <=? 2 ^ e * den)%Z)
  | _ => false
  end.

End Spec.

(* ===================================================================== *)
(** ** Predicates and sample data used in the statements *)
(* ===================================================================== *)

(** The string handed to [float] has digits and dots only. *)
Definition digit_or_dot (c : ascii) : bool := is_digit c || ascii_eqb c ".".

(** A pattern with a capturing group: [group(1)] is defined on its
    matches. *)
Definition has_group1 (p : regex) : Prop := 1 <= ngroups p.

(** The two patterns of the ordering example: a number after the label
    [Invoice], and a bare number. *)
Definition label_qualified : regex := seq (lit "Invoice" :: Patterns.label_tail).
Definition bare_number : regex := Group (plus digit).

(** The record of a file without text. *)
Definition empty_record (pdf_path : Path) : InvoiceData :=
  mkInvoice (path_name pdf_path) None None None "Erro: PDF vazio".

(** A matching step reads its continuation only on texts no longer than
    its own. *)
Definition local_step
    (step : string -> gmap nat string -> cont -> option (string * gmap nat string))
    : Prop :=
  forall s cs (k1 k2 : cont),
    (forall s' cs', String.length s' <= String.length s -> k1 s' cs' = k2 s' cs') ->
    step s cs k1 = step s cs k2.

(** A sample batch. *)

Definition sample_pages (p : Path) : result (list (option string)) :=
  match p with
  | ["in"; "a.pdf"] =>
      Ok [Some "Invoice #: 100";
          Some ("Data: 01/02/2024" ++ nl ++ "Total: R$ 1.000,00")]
  | ["in"; "empty.pdf"] => Ok [None]
  | ["in"; "zero.pdf"] => Ok [Some "Fatura 7 de 03/04/2024 Total: R$ 0,00"]
  | ["in"; "plain.pdf"] => Ok [Some "nothing to read here"]
  | _ => Raise (Exn OtherException "boom")
  end.

Definition sample_files : list Path :=
  [["in"; "a.pdf"]; ["in"; "empty.pdf"]; ["in"; "bad.pdf"]].

Definition sample_env : Env :=
  mkEnv (fun _ => true) (fun _ => Ok tt) (fun _ => Ok sample_files)
        sample_pages (fun _ => None) "20240102_030405" (fun _ _ => Ok tt).

(** A sink that refuses the name of the unreadable file, and a file system
    on which only the working directory can be written. *)
Definition refusing_env : Env :=
  mkEnv (fun _ => true) (fun _ => Ok tt) (fun _ => Ok sample_files)
        sample_pages
        (fun c => match c with
                  | CStr "bad.pdf" => Some (Exn OtherException "refused")
                  | _ => None
                  end)
        "20240102_030405"
        (fun _ p => match p with
                    | [_] => Ok tt
                    | _ => Raise (Exn OtherException "no such directory")
                    end).

Definition none_has_no_save : exn :=
  Exn AttributeError "'NoneType' object has no attribute 'save'".

(** The record of the sample file whose total is zero. *)
Definition zero_invoice : InvoiceData :=
  mkInvoice "zero.pdf" (Some "7") (Some "03/04/2024")
            (Some (S754_zero false)) "Processado".

(** Unfolding of the operations of [Try]. *)
Ltac run_try :=
  unfold bind, call, update, print, say, modify, lift, ret; cbn [fst snd].

(* ===================================================================== *)
(** ** The language of a pattern *)
(* ===================================================================== *)

(** The words a pattern matches.  A repeat is unrolled one round at a
    time, as [repeat_loop] runs it: a round beyond the compulsory ones
    needs the upper bound not to be reached. *)
Inductive matches : regex -> string -> Prop :=
  | matches_eps : matches Eps EmptyString
  | matches_lit (c d : ascii) :
      lower c = lower d -> matches (Lit c) (String d EmptyString)
  | matches_class (items : list item) (d : ascii) :
      existsb (item_match d) items = true ->
      matches (Class items) (String d EmptyString)
  | matches_seq (r1 r2 : regex) (w1 w2 : string) :
      matches r1 w1 -> matches r2 w2 -> matches (Seq r1 r2) (w1 ++ w2)
  | matches_repeat_stop (hi : option nat) (r : regex) :
      matches (Repeat 0 hi r) EmptyString
  | matches_repeat_more (lo : nat) (hi : option nat) (r : regex) (w1 w2 : string) :
      (lo = 0 -> hi_reached hi = false) ->
      matches r w1 ->
      matches (Repeat (pred lo) (dec_hi hi) r) w2 ->
      matches (Repeat lo hi r) (w1 ++ w2)
  | matches_group (r : regex) (w : string) :
      matches r w -> matches (Group r) w.

(** The body of group [i] of [r], when the groups to the left of [r]
    number [base]. *)
Fixpoint group_body (r : regex) (base i : nat) : option regex :=
  match r with
  | Eps | Lit _ | Class _ => None
  | Seq r1 r2 =>
      match group_body r1 base i with
      | Some g => Some g
      | None => group_body r2 (base + ngroups r1) i
      end
  | Repeat _ _ r' => group_body r' base i
  | Group r' => if (i =? S base)%nat then Some r' else group_body r' (S base) i
  end.

(** Group [i] lies on every path through [r]. *)
Fixpoint sets_group (r : regex) (base i : nat) : bool :=
  match r with
  | Eps | Lit _ | Class _ => false
  | Seq r1 r2 => sets_group r1 base i || sets_group r2 (base + ngroups r1) i
  | Repeat lo _ r' => (0 <? lo)%nat && sets_group r' base i
  | Group r' => (i =? S base)%nat || sets_group r' (S base) i
  end.

(** [v] is a piece of [s]. *)
Definition occurs (v s : string) : Prop :=
  exists a b : string, s = a ++ v ++ b.

(** How a match of [r] on the text [s] may change the groups. *)
Definition caps_rel (r : regex) (base : nat) (s : string)
    (cs cs' : gmap nat string) : Prop :=
  (forall i v, cs' !! i = Some v ->
     cs !! i = Some v \/
     exists g, group_body r base i = Some g /\ matches g v /\ occurs v s) /\
  (forall i, is_Some (cs !! i) \/ sets_group r base i = true -> is_Some (cs' !! i)).

(** A successful step has read a word of [r] and handed the rest to its
    continuation. *)
Definition step_sound (r : regex) (base : nat)
    (step : string -> gmap nat string -> cont -> option (string * gmap nat string))
    : Prop :=
  forall s cs (k : cont) res,
    step s cs k = Some res ->
    exists w s' cs',
      s = w ++ s' /\ matches r w /\ k s' cs' = Some res /\ caps_rel r base s cs cs'.

(** The characters with code points below 256. *)
Definition all_ascii : list ascii := map ascii_of_nat (List.seq 0 256).

(** Every character a match of [r] can contain satisfies [p]. *)
Fixpoint chars_ok (p : ascii -> bool) (r : regex) : bool :=
  match r with
  | Eps => true
  | Lit c =>
      forallb (fun d => implb (ascii_eqb (lower c) (lower d)) (p d)) all_ascii
  | Class items =>
      forallb (fun d => implb (existsb (item_match d) items) (p d)) all_ascii
  | Seq r1 r2 => chars_ok p r1 && chars_ok p r2
  | Repeat _ _ r' => chars_ok p r'
  | Group r' => chars_ok p r'
  end.

(** Every match of [r] contains a digit. *)
Fixpoint needs_digit (r : regex) : bool :=
  match r with
  | Eps | Lit _ => false
  | Class items =>
      forallb (fun i => match i with IDigit => true | _ => false end) items
  | Seq r1 r2 => needs_digit r1 || needs_digit r2
  | Repeat lo _ r' => (0 <? lo)%nat && needs_digit r'
  | Group r' => needs_digit r'
  end.

(** Bounds on the length of a match. *)
Fixpoint min_len (r : regex) : nat :=
  match r with
  | Eps => 0
  | Lit _ | Class _ => 1
  | Seq r1 r2 => min_len r1 + min_len r2
  | Repeat lo _ r' => lo * min_len r'
  | Group r' => min_len r'
  end.

Fixpoint max_len (r : regex) : option nat :=
  match r with
  | Eps => Some 0
  | Lit _ | Class _ => Some 1
  | Seq r1 r2 =>
      match max_len r1, max_len r2 with
      | Some a, Some b => Some (a + b)
      | _, _ => None
      end
  | Repeat lo (Some h) r' =>
      match max_len r' with
      | Some a => Some (Nat.max lo h * a)
      | None => None
      end
  | Repeat _ None _ => None
  | Group r' => max_len r'
  end.

(** The characters of a date. *)
Definition date_char (c : ascii) : bool :=
  is_digit c || ascii_eqb c "/" || ascii_eqb c "-".

(** The number of occurrences of [c] in [s]. *)
Fixpoint count_char (c : ascii) (s : string) : nat :=
  match s with
  | EmptyString => 0
  | String d s' => (if ascii_eqb d c then 1 else 0) + count_char c s'
  end.

(** A float that is [+0.0], positive and finite, or [+inf]. *)
Definition nonneg_float (x : float) : bool :=
  match x with
  | S754_zero false | S754_finite false _ _ | S754_infinity false => true
  | _ => false
  end.



Definition no_digit (s : string) : bool :=
  str_forall (fun c => negb (is_digit c)) s.

(* ===================================================================== *)
(** ** Facts about strings and [clean_value] *)
(* ===================================================================== *)

Lemma str_replace_empty (c : ascii) (s : string) :
  str_replace c "" s = Spec.remove_all c s.
Proof.
  unfold Spec.remove_all.
  induction s as [|d s IH]; simpl; [reflexivity|].
  destruct (ascii_eqb d c); simpl; now rewrite IH.
Qed.

Lemma str_replace_char (a b : ascii) (s : string) :
  str_replace a (String b "") s = Spec.replace_all a b s.
Proof.
  induction s as [|d s IH]; simpl; [reflexivity|].
  destruct (ascii_eqb d a); simpl; now rewrite IH.
Qed.

Lemma str_forall_filter (p : ascii -> bool) (s : string) :
  str_forall p (str_filter p s) = true.
Proof.
  induction s as [|c s IH]; simpl; [reflexivity|].
  destruct (p c) eqn:E; simpl; [rewrite E|]; exact IH.
Qed.

Lemma replace_all_comma_alphabet (s : string) :
  str_forall keep_char s = true ->
  str_forall digit_or_dot (Spec.replace_all "," "." s) = true.
Proof.
  induction s as [|c s IH]; simpl; [reflexivity|].
  intros H; apply andb_true_iff in H as [H1 H2].
  rewrite (IH H2), andb_true_r.
  unfold keep_char, digit_or_dot in *.
  destruct (ascii_eqb c ",") eqn:E; [reflexivity|].
  now rewrite orb_false_r in H1.
Qed.

Lemma no_comma_alphabet (s : string) :
  str_forall keep_char s = true -> str_in "," s = false ->
  str_forall digit_or_dot s = true.
Proof.
  induction s as [|c s IH]; simpl; [reflexivity|].
  intros H Hc; apply andb_true_iff in H as [H1 H2].
  apply orb_false_iff in Hc as [Hc1 Hc2].
  rewrite (IH H2 Hc2), andb_true_r.
  unfold keep_char in H1; unfold digit_or_dot.
  unfold ascii_eqb in Hc1; rewrite Ascii.eqb_sym in Hc1; fold (ascii_eqb c ",") in Hc1.
  now rewrite Hc1, orb_false_r in H1.
Qed.

Lemma remove_all_keeps (p : ascii -> bool) (c : ascii) (s : string) :
  str_forall p s = true -> str_forall p (Spec.remove_all c s) = true.
Proof.
  induction s as [|d s IH]; simpl; [reflexivity|].
  intros H; apply andb_true_iff in H as [H1 H2].
  unfold Spec.remove_all in *; simpl.
  destruct (ascii_eqb d c); simpl; [|rewrite H1]; auto.
Qed.

Lemma cleaned_alphabet (raw : string) :
  str_forall digit_or_dot (Spec.disambiguate (Spec.strip raw)) = true.
Proof.
  assert (K : str_forall keep_char (Spec.strip raw) = true)
    by apply str_forall_filter.
  unfold Spec.disambiguate.
  destruct (str_in "." (Spec.strip raw)) eqn:Ed,
           (str_in "," (Spec.strip raw)) eqn:Ec.
  - apply replace_all_comma_alphabet, remove_all_keeps, K.
  - now apply no_comma_alphabet.
  - apply replace_all_comma_alphabet, K.
  - now apply no_comma_alphabet.
Qed.

Lemma py_float_raises_ValueError (s : string) (e : exn) :
  py_float s = Raise e -> is_ValueError e = true.
Proof.
  unfold py_float.
  destruct (split_dot s) as [ip rest].
  destruct (str_truthy _); [destruct (decimal_value _ _)|];
    intros H; inversion H; reflexivity.
Qed.

Lemma clean_value_normalize (raw : string) :
  clean_value (Some raw) = Ok (Spec.normalize raw).
Proof.
  unfold clean_value, Spec.normalize.
  destruct raw as [|c raw]; [reflexivity|].
  cbn [str_truthy negb].
  change (str_filter keep_char (String c raw)) with (Spec.strip (String c raw)).
  set (t := Spec.strip (String c raw)).
  assert (D : (if str_in "," t && str_in "." t
               then str_replace "," "." (str_replace "." "" t)
               else if str_in "," t then str_replace "," "." t else t)
              = Spec.disambiguate t).
  { unfold Spec.disambiguate.
    rewrite str_replace_empty, !str_replace_char.
    destruct (str_in "," t), (str_in "." t); reflexivity. }
  rewrite D. unfold Spec.parse_decimal.
  destruct (py_float (Spec.disambiguate t)) as [x|e] eqn:E; [reflexivity|].
  now rewrite (py_float_raises_ValueError _ _ E).
Qed.

(** C5. Normalization keeps only digits, ['.'] and [','] of the raw
    string; with both separators present it removes every ['.'] and turns
    [','] into ['.'], with only [','] it turns [','] into ['.'], otherwise
    it leaves the string alone; the outcome is parsed as a decimal number.
    ["1.234,56"] and ["1234,56"] give the binary64 of 1234.56, and
    ["1.234"] gives the binary64 of 1.234, which is not that of 1234. *)
Theorem clean_value_refines_normalize :
  (forall raw : string,
     clean_value (Some raw)
     = Ok (Spec.parse_decimal (Spec.disambiguate (Spec.strip raw)))) /\
  (clean_value (Some "1.234,56")
     = Ok (Some (S754_finite false 5429652300748554 (-42))) /\
   clean_value (Some "1234,56") = clean_value (Some "1.234,56") /\
   Spec.nearest64 123456 100 (S754_finite false 5429652300748554 (-42)) = true) /\
  (clean_value (Some "1.234")
     = Ok (Some (S754_finite false 5557441940175192 (-52))) /\
   Spec.nearest64 1234 1000 (S754_finite false 5557441940175192 (-52)) = true /\
   Spec.nearest64 1234 1 (S754_finite false 5557441940175192 (-52)) = false /\
   clean_value (Some "1.234") <> clean_value (Some "1234")).
Proof.
  split; [exact clean_value_normalize|].
  repeat split; try (vm_compute; reflexivity).
  vm_compute; discriminate.
Qed.

Lemma clean_value_never_raises (v : option string) :
  exists r, clean_value v = Ok r.
Proof.
  destruct v as [raw|]; [|now exists None].
  rewrite clean_value_normalize; eauto.
Qed.

(** C9. The normalizer returns absent for an absent or empty input and for
    a string whose disambiguated form does not parse, and it never raises;
    [""] and ["abc"] both give absent. *)
Theorem clean_value_absent_never_raises :
  (forall v : option string, exists r, clean_value v = Ok r) /\
  (forall v : option string,
     v = None \/ v = Some "" \/
     (exists raw e, v = Some raw /\
        py_float (Spec.disambiguate (Spec.strip raw)) = Raise e) ->
     clean_value v = Ok None) /\
  clean_value (Some "") = Ok None /\
  clean_value (Some "abc") = Ok None.
Proof.
  split; [|split; [|split; reflexivity]].
  - exact clean_value_never_raises.
  - intros v [->|[->|(raw & e & -> & E)]]; try reflexivity.
    rewrite clean_value_normalize.
    unfold Spec.normalize, Spec.parse_decimal. now rewrite E.
Qed.

Lemma clean_value_absent_never_raises_witness :
  clean_value (Some "1.2.3") = Ok None.
Proof.
  apply (proj1 (proj2 clean_value_absent_never_raises) (Some "1.2.3")).
  right; right.
  exists "1.2.3", (float_error "1.2.3").
  split; reflexivity.
Defined.

(* ===================================================================== *)
(** ** Facts about [find_pattern] *)
(* ===================================================================== *)

Lemma search_from_groups (r : regex) (s : string) :
  forall pos m, search_from r pos s = Some m -> m_groups m = ngroups r.
Proof.
  induction s as [|c s IH]; intros pos m; simpl;
    destruct (rmatch r 0 _ ∅ _) as [[s' cs]|];
    intros H; inversion H; subst; eauto.
Qed.

Lemma re_search_groups (r : regex) (text : string) (m : Match) :
  re_search r text = Some m -> m_groups m = ngroups r.
Proof. apply search_from_groups. Qed.

Lemma group1_defined (p : regex) (text : string) (m : Match) :
  has_group1 p -> re_search p text = Some m -> group m 1 = Ok (m_caps m !! 1).
Proof.
  intros Hp Hm. unfold group.
  rewrite (re_search_groups _ _ _ Hm).
  destruct (Nat.leb_spec 1 (ngroups p)) as [_|Hlt]; [reflexivity|].
  unfold has_group1 in Hp; lia.
Qed.

Lemma find_pattern_skip (text : string) (before rest : list regex) :
  Forall (fun q => re_search q text = None) before ->
  find_pattern text (before ++ rest)%list = find_pattern text rest.
Proof.
  induction 1 as [|q before Hq _ IH]; simpl; [reflexivity|].
  now rewrite Hq.
Qed.

Lemma find_pattern_never_raises (text : string) (patterns : list regex) :
  Forall has_group1 patterns -> exists r, find_pattern text patterns = Ok r.
Proof.
  induction 1 as [|p ps Hp _ IH]; simpl; [eauto|].
  destruct (re_search p text) as [m|] eqn:E; [|exact IH].
  rewrite (group1_defined _ _ _ Hp E); eauto.
Qed.

Lemma source_patterns_have_group1 :
  Forall has_group1 Patterns.NUMBER /\
  Forall has_group1 Patterns.DATE /\
  Forall has_group1 Patterns.VALUE.
Proof.
  unfold has_group1; repeat split; repeat constructor.
Qed.

(** C6, amended. For every text and every list of patterns that each have
    a capturing group, [find_pattern] does not raise; it returns group 1
    of the first pattern of the list that matches somewhere in the text,
    whatever the later patterns would match, and absent when none
    matches.  The search ignores case.  On a text with [Invoice #: 100]
    and a bare [200], the list [label-qualified, bare-number] gives [100]. *)
Theorem find_pattern_first_match :
  (forall (text : string) (patterns : list regex),
     Forall has_group1 patterns ->
     (exists r, find_pattern text patterns = Ok r) /\
     (forall (before : list regex) (p : regex) (after : list regex) (m : Match),
        patterns = (before ++ p :: after)%list ->
        Forall (fun q => re_search q text = None) before ->
        re_search p text = Some m ->
        find_pattern text patterns = Ok (m_caps m !! 1)) /\
     (Forall (fun q => re_search q text = None) patterns ->
      find_pattern text patterns = Ok None)) /\
  find_pattern "200 Invoice #: 100" [label_qualified; bare_number]
    = Ok (Some "100") /\
  find_pattern "200 INVOICE #: 100" [label_qualified; bare_number]
    = Ok (Some "100") /\
  find_pattern "200 Invoice #: 100" [bare_number; label_qualified]
    = Ok (Some "200").
Proof.
  split; [|repeat split; vm_compute; reflexivity].
  intros text patterns Hg. split; [|split].
  - now apply find_pattern_never_raises.
  - intros before p after m -> Hb Hm.
    rewrite (find_pattern_skip _ _ _ Hb). simpl. rewrite Hm.
    apply group1_defined with (p := p) (text := text); [|exact Hm].
    apply Forall_app in Hg as [_ Hg]. now inversion Hg.
  - intros Hn. rewrite <- (app_nil_r patterns).
    now rewrite (find_pattern_skip _ _ _ Hn).
Qed.

Lemma find_pattern_first_match_witness :
  exists r, find_pattern "Fatura 12" Patterns.NUMBER = Ok r.
Proof.
  apply (proj1 find_pattern_first_match "Fatura 12" Patterns.NUMBER).
  unfold has_group1; repeat constructor.
Defined.

(** C6 as stated fails: a pattern that matches but has no capturing group
    makes [group(1)] raise [IndexError]. *)
Lemma find_pattern_raises_without_group :
  find_pattern "Invoice 7" [lit "Invoice"]
  = Raise (Exn IndexError "no such group").
Proof. vm_compute. reflexivity. Qed.

(* ===================================================================== *)
(** ** Facts about [process_pdf] *)
(* ===================================================================== *)

Lemma process_pdf_log_empty (env : Env) (patterns : PatternSets) (pdf_path : Path) :
  fst (extract_text env pdf_path) = EmptyString ->
  process_pdf_log env patterns pdf_path
  = (empty_record pdf_path, snd (extract_text env pdf_path)).
Proof.
  intros H. unfold process_pdf_log, process_pdf_body. run_try.
  rewrite H. reflexivity.
Qed.

Lemma process_pdf_log_text (env : Env) (patterns : PatternSets)
    (pdf_path : Path) (n d raw : option string) (v : option float) :
  let text := fst (extract_text env pdf_path) in
  text <> EmptyString ->
  find_pattern text (P_NUMBER patterns) = Ok n ->
  find_pattern text (P_DATE patterns) = Ok d ->
  find_pattern text (P_VALUE patterns) = Ok raw ->
  clean_value raw = Ok v ->
  process_pdf_log env patterns pdf_path
  = (mkInvoice (path_name pdf_path) n d v "Processado",
     (snd (extract_text env pdf_path) ++ [EDebug (path_name pdf_path) n d v])%list).
Proof.
  intros text Ht Hn Hd Hr Hv.
  unfold process_pdf_log, process_pdf_body. run_try.
  fold text. destruct text as [|c t] eqn:E; [congruence|].
  cbn [str_truthy negb]. rewrite Hn, Hd, Hr, Hv. reflexivity.
Qed.

(** With the pattern lists of the source, a file with text is always
    processed to the end of the [try] block. *)
Lemma process_pdf_log_source (env : Env) (pdf_path : Path) :
  fst (extract_text env pdf_path) <> EmptyString ->
  exists n d v,
    process_pdf_log env source_patterns pdf_path
    = (mkInvoice (path_name pdf_path) n d v "Processado",
       (snd (extract_text env pdf_path) ++ [EDebug (path_name pdf_path) n d v])%list).
Proof.
  intros Ht.
  destruct source_patterns_have_group1 as (Gn & Gd & Gv).
  destruct (find_pattern_never_raises (fst (extract_text env pdf_path)) _ Gn) as [n Hn].
  destruct (find_pattern_never_raises (fst (extract_text env pdf_path)) _ Gd) as [d Hd].
  destruct (find_pattern_never_raises (fst (extract_text env pdf_path)) _ Gv) as [raw Hr].
  destruct (clean_value_never_raises raw) as [v Hv].
  exists n, d, v.
  now apply process_pdf_log_text with (raw := raw).
Qed.

Lemma filename_process_pdf (env : Env) (patterns : PatternSets) (pdf_path : Path) :
  filename (process_pdf env patterns pdf_path) = path_name pdf_path.
Proof.
  unfold process_pdf, process_pdf_log, process_pdf_body. run_try.
  destruct (str_truthy (fst (extract_text env pdf_path))); cbn [negb];
    [|reflexivity].
  destruct (find_pattern _ (P_NUMBER patterns)); [|reflexivity].
  destruct (find_pattern _ (P_DATE patterns)); [|reflexivity].
  destruct (find_pattern _ (P_VALUE patterns)) as [raw|]; [|reflexivity].
  destruct (clean_value raw); reflexivity.
Qed.

(** C7. A file whose extracted text is empty gives the record with status
    [Erro: PDF vazio] and number, date and value absent; nothing past the
    extraction runs: the record is the same for every choice of pattern
    lists and no line is printed beyond those of the extraction. *)
Theorem process_pdf_empty_text (env : Env) (patterns : PatternSets) (pdf_path : Path) :
  fst (extract_text env pdf_path) = EmptyString ->
  process_pdf env patterns pdf_path
    = mkInvoice (path_name pdf_path) None None None "Erro: PDF vazio" /\
  snd (process_pdf_log env patterns pdf_path) = snd (extract_text env pdf_path).
Proof.
  intros H. unfold process_pdf.
  rewrite (process_pdf_log_empty _ _ _ H). split; reflexivity.
Qed.

Lemma process_pdf_empty_text_witness :
  process_pdf sample_env (mkPatternSets [Lit "x"] [] []) ["in"; "empty.pdf"]
    = mkInvoice "empty.pdf" None None None "Erro: PDF vazio" /\
  snd (process_pdf_log sample_env (mkPatternSets [Lit "x"] [] []) ["in"; "empty.pdf"])
    = [].
Proof.
  apply (process_pdf_empty_text sample_env (mkPatternSets [Lit "x"] [] [])
           ["in"; "empty.pdf"]).
  reflexivity.
Defined.

Lemma extract_text_raise (env : Env) (pdf_path : Path) (e : exn) :
  pdf_pages env pdf_path = Raise e ->
  extract_text env pdf_path = (EmptyString, [EReadError (path_name pdf_path) e]).
Proof. intros H. unfold extract_text. now rewrite H. Qed.

(** C10. With the pattern lists of the source, the status of a record
    differs from [Processado] exactly when the reader raised or no text
    was extracted; a file with text keeps [Processado] whatever fields
    are found, and a file in which no field is found has the three fields
    absent and status [Processado]. *)
Theorem status_processed_iff :
  (forall (env : Env) (pdf_path : Path),
     status (process_pdf env source_patterns pdf_path) <> "Processado" <->
     ((exists e, pdf_pages env pdf_path = Raise e) \/
      fst (extract_text env pdf_path) = EmptyString)) /\
  (forall (env : Env) (pdf_path : Path),
     fst (extract_text env pdf_path) <> EmptyString ->
     status (process_pdf env source_patterns pdf_path) = "Processado") /\
  process_pdf sample_env source_patterns ["in"; "plain.pdf"]
    = mkInvoice "plain.pdf" None None None "Processado".
Proof.
  assert (P : forall env pdf_path,
             fst (extract_text env pdf_path) <> EmptyString ->
             status (process_pdf env source_patterns pdf_path) = "Processado").
  { intros env pdf_path Ht.
    destruct (process_pdf_log_source env pdf_path Ht) as (n & d & v & E).
    unfold process_pdf. now rewrite E. }
  split; [|split; [exact P | vm_compute; reflexivity]].
  intros env pdf_path. split.
  - intros Hs. right.
    destruct (fst (extract_text env pdf_path)) as [|c t] eqn:E; [reflexivity|].
    exfalso; apply Hs, P. rewrite E; discriminate.
  - intros [[e He]|Ht].
    + unfold process_pdf.
      rewrite process_pdf_log_empty by now rewrite (extract_text_raise _ _ _ He).
      discriminate.
    + unfold process_pdf. rewrite (process_pdf_log_empty _ _ _ Ht). discriminate.
Qed.

Lemma status_processed_iff_witness :
  status (process_pdf sample_env source_patterns ["in"; "a.pdf"]) = "Processado".
Proof.
  apply (proj1 (proj2 status_processed_iff) sample_env ["in"; "a.pdf"]).
  vm_compute; discriminate.
Defined.

(** C4. The batch step gives one record per file, in the order of the
    files: the lengths agree, the record at each index is that of the
    file at that index, and the records carry the names of the files in
    order. *)
Theorem process_all_one_per_document (env : Env) (patterns : PatternSets)
    (pdf_files : list Path) :
  let invoices := fst (process_all env patterns pdf_files) in
  List.length invoices = List.length pdf_files /\
  (forall i : nat,
     invoices !! i = process_pdf env patterns <$> (pdf_files !! i)) /\
  map filename invoices = map path_name pdf_files.
Proof.
  cbn [process_all fst]. split; [|split].
  - apply length_map.
  - intros i. apply list_lookup_fmap.
  - rewrite map_map. apply map_ext. intros p. apply filename_process_pdf.
Qed.

(** C1, amended. When the reader raises on a file, [extract_text] prints
    the failure and returns the empty text, so the record has status
    [Erro: PDF vazio] with the three fields absent, and the other files of
    the batch are processed as usual. *)
Theorem process_pdf_reader_raises (env : Env) (patterns : PatternSets)
    (pdf_path : Path) (e : exn) :
  pdf_pages env pdf_path = Raise e ->
  process_pdf_log env patterns pdf_path
    = (mkInvoice (path_name pdf_path) None None None "Erro: PDF vazio",
       [EReadError (path_name pdf_path) e]) /\
  (forall before after : list Path,
     fst (process_all env patterns (before ++ pdf_path :: after)%list)
     = (map (process_pdf env patterns) before
        ++ mkInvoice (path_name pdf_path) None None None "Erro: PDF vazio"
        :: map (process_pdf env patterns) after)%list).
Proof.
  intros He.
  assert (L : process_pdf_log env patterns pdf_path
              = (empty_record pdf_path, [EReadError (path_name pdf_path) e])).
  { rewrite process_pdf_log_empty by now rewrite (extract_text_raise _ _ _ He).
    now rewrite (extract_text_raise _ _ _ He). }
  split; [exact L|].
  intros before after. cbn [process_all fst].
  rewrite map_app. cbn [map]. unfold process_pdf at 2. now rewrite L.
Qed.

Lemma process_pdf_reader_raises_witness :
  process_pdf_log sample_env source_patterns ["in"; "bad.pdf"]
    = (mkInvoice "bad.pdf" None None None "Erro: PDF vazio",
       [EReadError "bad.pdf" (Exn OtherException "boom")]).
Proof.
  apply (process_pdf_reader_raises sample_env source_patterns ["in"; "bad.pdf"]
           (Exn OtherException "boom")).
  reflexivity.
Defined.

(** C1 as stated fails: the reader raises with message [boom], and the
    status of the record does not carry that message. *)
Lemma reader_failure_not_reported_in_status :
  pdf_pages sample_env ["in"; "bad.pdf"] = Raise (Exn OtherException "boom") /\
  status (process_pdf sample_env source_patterns ["in"; "bad.pdf"])
    = "Erro: PDF vazio" /\
  status (process_pdf sample_env source_patterns ["in"; "bad.pdf"])
    <> "Erro: " ++ "boom".
Proof.
  split; [reflexivity|].
  split; [reflexivity|].
  vm_compute; discriminate.
Qed.

(* ===================================================================== *)
(** ** Facts about [create_excel] and [run] *)
(* ===================================================================== *)

Lemma run_setup_ready (env : Env) (config : Config) (patterns : PatternSets)
    (out : list event) (wb : option Workbook) (ts : string) (p : Path) :
  run_setup env config patterns [] = (out, Ok (Ready wb ts p)) ->
  exists files,
    path_exists env (PDF_DIR config) = true /\
    path_glob env (PDF_DIR config) = Ok files /\ files <> [] /\
    wb = fst (create_excel env config (fst (process_all env patterns files))) /\
    ts = now_stamp env /\
    p = path_join (EXCEL_DIR config) ("invoices_" ++ ts ++ ".xlsx").
Proof.
  unfold run_setup.
  destruct (path_exists env (PDF_DIR config)); cbn [negb];
    [|run_try; intros H; inversion H].
  run_try.
  destruct (path_mkdir env (EXCEL_DIR config)); [|intros H; inversion H].
  destruct (path_glob env (PDF_DIR config)) as [files|]; [|intros H; inversion H].
  destruct files as [|f files]; [intros H; inversion H|].
  destruct (process_all env patterns (f :: files)) as [invoices out1] eqn:E1.
  destruct (create_excel env config invoices) as [wb' out2] eqn:E2.
  cbn [fst snd]. intros H; inversion H; subst.
  exists (f :: files). rewrite E1; cbn [fst]. rewrite E2.
  repeat split; congruence.
Qed.

Lemma run_setup_normal (env : Env) (config : Config) (patterns : PatternSets)
    (files : list Path) :
  path_exists env (PDF_DIR config) = true ->
  is_ok (path_mkdir env (EXCEL_DIR config)) = true ->
  path_glob env (PDF_DIR config) = Ok files -> files <> [] ->
  exists out,
    run_setup env config patterns []
    = (out, Ok (Ready (fst (create_excel env config
                              (fst (process_all env patterns files))))
                  (now_stamp env)
                  (path_join (EXCEL_DIR config)
                     ("invoices_" ++ now_stamp env ++ ".xlsx")))).
Proof.
  intros He Hm Hg Hf. unfold run_setup. rewrite He; cbn [negb]. run_try.
  destruct (path_mkdir env (EXCEL_DIR config)); [|discriminate].
  rewrite Hg. destruct files as [|f files]; [congruence|].
  destruct (process_all env patterns (f :: files)) as [invoices out1].
  cbn [fst snd].
  destruct (create_excel env config invoices) as [wb' out2].
  cbn [fst snd]. eauto.
Qed.

(** C2. When filling the worksheet raises nothing, [create_excel] returns
    [None] and not the workbook it built; the variable [wb] of [run] is
    then [None], both calls of [save] are made on it, and [run] ends with
    the [AttributeError] of the second. *)
Theorem create_excel_returns_none (env : Env) (config : Config) :
  (forall invoices : list InvoiceData,
     invoices <> [] ->
     is_ok (snd (create_excel_body env config invoices Workbook_new)) = true ->
     create_excel env config invoices = (None, [])) /\
  (forall (patterns : PatternSets) (files : list Path),
     path_exists env (PDF_DIR config) = true ->
     is_ok (path_mkdir env (EXCEL_DIR config)) = true ->
     path_glob env (PDF_DIR config) = Ok files -> files <> [] ->
     is_ok (snd (create_excel_body env config
                   (fst (process_all env patterns files)) Workbook_new)) = true ->
     (exists out ts p,
        run_setup env config patterns [] = (out, Ok (Ready None ts p))) /\
     snd (run env config patterns) = Raise none_has_no_save).
Proof.
  assert (C : forall invoices,
             is_ok (snd (create_excel_body env config invoices Workbook_new)) = true ->
             create_excel env config invoices = (None, [])).
  { intros invoices H. unfold create_excel.
    destruct (create_excel_body env config invoices Workbook_new) as [wb [u|e]];
      [reflexivity|discriminate]. }
  split; [intros invoices _; apply C|].
  intros patterns files He Hm Hg Hf Hb.
  destruct (run_setup_normal env config patterns files He Hm Hg Hf) as [out S].
  rewrite (C _ Hb) in S. cbn [fst] in S.
  split; [eauto|].
  unfold run. rewrite S. unfold run_save, save. run_try. reflexivity.
Qed.

Lemma create_excel_returns_none_witness :
  snd (run sample_env default_config source_patterns) = Raise none_has_no_save.
Proof.
  apply (proj2 (create_excel_returns_none sample_env default_config)
           source_patterns sample_files);
    try reflexivity; try discriminate.
Defined.

(** C3. In a run that reaches the save, [save] is first called with the
    path inside the configured directory; the call with the bare file
    name is made exactly when the first one fails; [run] returns [True]
    exactly when one of the two succeeds; when both fail, the first
    failure is printed and the second leaves [run] as an exception. *)
Theorem run_two_tier_save (env : Env) (config : Config) (patterns : PatternSets)
    (out : list event) (wb : option Workbook) (ts : string) (p : Path) :
  run_setup env config patterns [] = (out, Ok (Ready wb ts p)) ->
  let fallback : Path := ["invoices_" ++ ts ++ ".xlsx"] in
  let first := save_result env wb p in
  let second := save_result env wb fallback in
  p = path_join (EXCEL_DIR config) ("invoices_" ++ ts ++ ".xlsx") /\
  (exists tail,
     fst (run env config patterns) = (out ++ ECallSave p :: tail)%list /\
     (is_ok first = false <-> In (ECallSave fallback) tail)) /\
  (snd (run env config patterns) = Ok true <->
   is_ok first = true \/ is_ok second = true) /\
  (is_ok first = false -> is_ok second = false ->
   exists e1 e2,
     first = Raise e1 /\ second = Raise e2 /\
     snd (run env config patterns) = Raise e2 /\
     In (ESaveError e1) (fst (run env config patterns))).
Proof.
  intros S fallback first second.
  destruct (run_setup_ready _ _ _ _ _ _ _ S) as (files & _ & _ & _ & _ & _ & Hp).
  split; [exact Hp|].
  unfold run. rewrite S. unfold run_save, save. run_try.
  fold fallback. fold first. fold second.
  destruct first as [[]|e1] eqn:E1; cbn [fst snd is_ok].
  - split; [|split].
    + exists [ESaved p]. split; [now rewrite <- !app_assoc|].
      split; [discriminate|].
      intros [H|[]]; discriminate.
    + split; auto.
    + discriminate.
  - destruct second as [[]|e2] eqn:E2; cbn [fst snd is_ok].
    + split; [|split].
      * exists [ESaveError e1; ECallSave fallback; ESavedFallback fallback].
        split; [now rewrite <- !app_assoc|].
        split; [|reflexivity]. intros _. right; left; reflexivity.
      * split; auto.
      * discriminate.
    + split; [|split].
      * exists [ESaveError e1; ECallSave fallback].
        split; [now rewrite <- !app_assoc|].
        split; [|reflexivity]. intros _. right; left; reflexivity.
      * split; [discriminate|intros [H|H]; discriminate].
      * intros _ _. exists e1, e2. repeat split.
        apply in_or_app; left. apply in_or_app; right. left; reflexivity.
Qed.

Lemma run_two_tier_save_witness :
  snd (run refusing_env default_config source_patterns) = Ok true <->
  is_ok (save_result refusing_env
           (fst (create_excel refusing_env default_config
                   (fst (process_all refusing_env source_patterns sample_files))))
           (path_join (EXCEL_DIR default_config) "invoices_20240102_030405.xlsx"))
    = true \/
  is_ok (save_result refusing_env
           (fst (create_excel refusing_env default_config
                   (fst (process_all refusing_env source_patterns sample_files))))
           ["invoices_20240102_030405.xlsx"])
    = true.
Proof.
  apply (run_two_tier_save refusing_env default_config source_patterns
           (fst (run_setup refusing_env default_config source_patterns []))
           (fst (create_excel refusing_env default_config
                   (fst (process_all refusing_env source_patterns sample_files))))
           "20240102_030405"
           (path_join (EXCEL_DIR default_config) "invoices_20240102_030405.xlsx")).
  vm_compute. reflexivity.
Defined.

(* ===================================================================== *)
(** ** Facts about [to_row] and the worksheet *)
(* ===================================================================== *)

(** The value cell holds the sentinel exactly for an absent value and for
    a value that is zero. *)
Lemma to_row_value_cell (self : InvoiceData) :
  to_row self !! 2 = Some (CStr not_found) <->
  value self = None \/ exists s, value self = Some (S754_zero s).
Proof.
  unfold to_row; cbn [lookup list_lookup float_or].
  destruct (value self) as [[s|s| |s m e]|]; cbn [float_truthy float_or]; split;
    intros H; try discriminate; eauto; try (now left);
    destruct H as [H|[s' H]]; discriminate.
Qed.

(** C8, the failing input. A file whose total reads [0,00] gives a record
    with the value present and equal to zero, and [to_row] writes the
    sentinel in its value cell. *)
Theorem to_row_zero_value_sentinel :
  process_pdf sample_env source_patterns ["in"; "zero.pdf"] = zero_invoice /\
  value zero_invoice = Some (S754_zero false) /\
  to_row zero_invoice
  = [CStr "7"; CStr "03/04/2024"; CStr not_found; CStr "zero.pdf";
     CStr "Processado"].
Proof. repeat split. Qed.

Section Layout.

Variable env : Env.
Hypothesis accepts : forall c : Cell, cell_check env c = None.








End Layout.

(* ===================================================================== *)
(** ** The fuel of the matcher is enough *)
(* ===================================================================== *)

Section Fuel.

Variable step : string -> gmap nat string -> cont ->
                option (string * gmap nat string).
Hypothesis step_local : local_step step.

Lemma repeat_loop_local (fuel : nat) :
  forall lo hi, local_step (repeat_loop step fuel lo hi).
Proof.
  induction fuel as [|fuel IH]; intros lo hi s cs k1 k2 Hk; [reflexivity|].
  cbn [repeat_loop]. destruct lo as [|lo].
  - destruct (hi_reached hi); [apply Hk; lia|].
    rewrite (Hk s cs) by lia.
    erewrite step_local; [reflexivity|].
    intros s' cs' Hs'. cbv beta.
    destruct (String.length s' <? String.length s)%nat; [|reflexivity].
    apply IH. intros s'' cs'' Hs''. apply Hk. lia.
  - apply step_local. intros s' cs' Hs'.
    apply IH. intros s'' cs'' Hs''. apply Hk. lia.
Qed.

(** Past [lo + length s] rounds, more fuel changes nothing. *)
Lemma repeat_loop_fuel_enough (f1 : nat) :
  forall f2 lo hi s cs k,
    lo + String.length s < f1 -> lo + String.length s < f2 ->
    repeat_loop step f1 lo hi s cs k = repeat_loop step f2 lo hi s cs k.
Proof.
  induction f1 as [|f1 IH]; intros f2 lo hi s cs k H1 H2; [lia|].
  destruct f2 as [|f2]; [lia|].
  cbn [repeat_loop]. destruct lo as [|lo].
  - destruct (hi_reached hi); [reflexivity|].
    erewrite step_local; [reflexivity|].
    intros s' cs' Hs'. cbv beta.
    destruct (Nat.ltb_spec (String.length s') (String.length s)); [|reflexivity].
    apply IH; simpl in *; lia.
  - apply step_local. intros s' cs' Hs'. apply IH; simpl in *; lia.
Qed.

End Fuel.

Lemma rmatch_local (r : regex) : forall base, local_step (rmatch r base).
Proof.
  induction r as [|c|items|r1 IH1 r2 IH2|lo hi r IH|r IH];
    intros base s cs k1 k2 Hk; cbn [rmatch].
  - apply Hk; lia.
  - destruct s as [|d s]; [reflexivity|].
    destruct (ascii_eqb _ _); [apply Hk; simpl; lia|reflexivity].
  - destruct s as [|d s]; [reflexivity|].
    destruct (existsb _ _); [apply Hk; simpl; lia|reflexivity].
  - apply IH1. intros s' cs' Hs'. apply IH2. intros s'' cs'' Hs''.
    apply Hk; lia.
  - apply repeat_loop_local; [apply IH|exact Hk].
  - apply IH. intros s' cs' Hs'. apply Hk; lia.
Qed.

(** The fuel [rmatch] gives to a repeat can be replaced by any larger
    amount: no match is lost or cut short for want of fuel. *)
Lemma rmatch_repeat_fuel (lo : nat) (hi : option nat) (r : regex) (base extra : nat)
    (s : string) (cs : gmap nat string) (k : cont) :
  rmatch (Repeat lo hi r) base s cs k
  = repeat_loop (rmatch r base) (lo + String.length s + 1 + extra) lo hi s cs k.
Proof.
  cbn [rmatch]. apply repeat_loop_fuel_enough; [apply rmatch_local|lia|lia].
Qed.

(* ===================================================================== *)
(** ** The matcher is sound for the language of its pattern *)
(* ===================================================================== *)

Lemma str_app_cons (c : ascii) (a b : string) :
  String c a ++ b = String c (a ++ b).
Proof. reflexivity. Qed.

Lemma str_app_nil_l (a : string) : "" ++ a = a.
Proof. reflexivity. Qed.

Lemma str_length_app (a b : string) :
  String.length (a ++ b) = String.length a + String.length b.
Proof.
  induction a as [|c a IH]; [reflexivity|].
  rewrite str_app_cons. cbn [String.length]. now rewrite IH.
Qed.

Lemma str_app_assoc (a b c : string) : (a ++ b) ++ c = a ++ b ++ c.
Proof.
  induction a as [|d a IH]; [reflexivity|].
  rewrite !str_app_cons. now rewrite IH.
Qed.

Lemma str_app_nil_r (a : string) : a ++ "" = a.
Proof.
  induction a as [|d a IH]; [reflexivity|].
  rewrite str_app_cons. now rewrite IH.
Qed.

Lemma str_take_app (w s : string) :
  str_take (String.length (w ++ s) - String.length s) (w ++ s) = w.
Proof.
  rewrite str_length_app.
  replace (String.length w + String.length s - String.length s)
    with (String.length w) by lia.
  induction w as [|c w IH].
  - rewrite str_app_nil_l. destruct s; reflexivity.
  - rewrite str_app_cons. cbn [String.length str_take]. now rewrite IH.
Qed.

Lemma occurs_prefix (w s : string) : occurs w (w ++ s).
Proof. exists EmptyString, s. reflexivity. Qed.

Lemma occurs_app_r (v w s : string) : occurs v s -> occurs v (w ++ s).
Proof.
  intros (a & b & ->). exists (w ++ a), b. now rewrite str_app_assoc.
Qed.

Lemma occurs_cons (v : string) (c : ascii) (s : string) :
  occurs v s -> occurs v (String c s).
Proof. apply (occurs_app_r v (String c EmptyString) s). Qed.

Lemma group_body_range (r : regex) :
  forall base i g, group_body r base i = Some g ->
    base < i /\ i <= base + ngroups r.
Proof.
  induction r as [| | |r1 IH1 r2 IH2|lo hi r IH|r IH]; intros base i g; simpl;
    try discriminate.
  - destruct (group_body r1 base i) as [g1|] eqn:E1.
    + intros _. destruct (IH1 _ _ _ E1). lia.
    + intros E2. destruct (IH2 _ _ _ E2). lia.
  - apply IH.
  - destruct (Nat.eqb_spec i (S base)) as [->|Hne]; [intros _; lia|].
    intros E. destruct (IH _ _ _ E). lia.
Qed.

Lemma caps_rel_refl (r : regex) (base : nat) (s : string) (cs : gmap nat string) :
  sets_group r base = (fun _ => false) \/ (forall i, sets_group r base i = false) ->
  caps_rel r base s cs cs.
Proof.
  intros H. split; [auto|].
  intros i [Hi|Hi]; [exact Hi|].
  destruct H as [H|H]; [rewrite H in Hi|rewrite H in Hi]; discriminate.
Qed.

Lemma caps_rel_seq (r1 r2 : regex) (base : nat) (w1 s1 : string)
    (cs cs1 cs2 : gmap nat string) :
  caps_rel r1 base (w1 ++ s1) cs cs1 ->
  caps_rel r2 (base + ngroups r1) s1 cs1 cs2 ->
  caps_rel (Seq r1 r2) base (w1 ++ s1) cs cs2.
Proof.
  intros [A1 B1] [A2 B2]. split.
  - intros i v Hv. destruct (A2 _ _ Hv) as [H1|(g & Hg & Hm & Ho)].
    + destruct (A1 _ _ H1) as [H|(g & Hg & Hm & Ho)]; [now left|].
      right. exists g. simpl. rewrite Hg. auto.
    + right. exists g. simpl.
      destruct (group_body r1 base i) as [g1|] eqn:E1.
      * destruct (group_body_range _ _ _ _ E1), (group_body_range _ _ _ _ Hg). lia.
      * split; [exact Hg|]. split; [exact Hm|]. now apply occurs_app_r.
  - intros i Hi. apply B2. simpl in Hi.
    destruct Hi as [Hi|Hi].
    + left. apply B1. now left.
    + apply orb_true_iff in Hi as [Hi|Hi]; [left; apply B1|]; auto.
Qed.

Section RepeatSound.

Variable r : regex.
Variable base : nat.
Variable step : string -> gmap nat string -> cont ->
                option (string * gmap nat string).
Hypothesis step_ok : step_sound r base step.

Lemma repeat_loop_sound (fuel : nat) :
  forall lo hi, step_sound (Repeat lo hi r) base (repeat_loop step fuel lo hi).
Proof.
  induction fuel as [|fuel IH]; intros lo hi s cs k res; [discriminate|].
  cbn [repeat_loop]. destruct lo as [|lo].
  - assert (Stop : k s cs = Some res ->
              exists w s' cs', s = w ++ s' /\ matches (Repeat 0 hi r) w /\
                k s' cs' = Some res /\ caps_rel (Repeat 0 hi r) base s cs cs').
    { intros Hk. exists EmptyString, s, cs.
      split; [reflexivity|]. split; [constructor|]. split; [exact Hk|].
      apply caps_rel_refl. right. reflexivity. }
    destruct (hi_reached hi) eqn:Hhi; [exact Stop|].
    destruct (step s cs _) as [res'|] eqn:E; [|exact Stop].
    intros [= ->].
    destruct (step_ok _ _ _ _ E) as (w1 & s1 & cs1 & -> & Hm1 & Hk1 & [A1 B1]).
    destruct (String.length s1 <? String.length (w1 ++ s1))%nat; [|discriminate].
    destruct (IH _ _ _ _ _ _ Hk1) as (w2 & s2 & cs2 & -> & Hm2 & Hk2 & [A2 B2]).
    exists (w1 ++ w2), s2, cs2.
    split; [now rewrite str_app_assoc|].
    split; [now apply matches_repeat_more|].
    split; [exact Hk2|]. split.
    + intros i v Hv. destruct (A2 _ _ Hv) as [H|(g & Hg & Hm & Ho)].
      * destruct (A1 _ _ H) as [H'|(g & Hg & Hm & Ho)]; [now left|].
        right. exists g. auto.
      * right. exists g.
        repeat split; auto. now apply occurs_app_r.
    + intros i [Hi|Hi]; [|discriminate]. apply B2. left. apply B1. now left.
  - intros E.
    destruct (step_ok _ _ _ _ E) as (w1 & s1 & cs1 & -> & Hm1 & Hk1 & [A1 B1]).
    destruct (IH _ _ _ _ _ _ Hk1) as (w2 & s2 & cs2 & -> & Hm2 & Hk2 & [A2 B2]).
    exists (w1 ++ w2), s2, cs2.
    split; [now rewrite str_app_assoc|].
    split; [apply matches_repeat_more; [discriminate|exact Hm1|exact Hm2]|].
    split; [exact Hk2|]. split.
    + intros i v Hv. destruct (A2 _ _ Hv) as [H|(g & Hg & Hm & Ho)].
      * destruct (A1 _ _ H) as [H'|(g & Hg & Hm & Ho)]; [now left|].
        right. exists g. auto.
      * right. exists g.
        repeat split; auto. now apply occurs_app_r.
    + intros i Hi. apply B2. left. apply B1.
      destruct Hi as [Hi|Hi]; [now left|right].
      cbn [sets_group] in Hi. now apply andb_true_iff in Hi as [_ Hi].
Qed.

End RepeatSound.

Lemma rmatch_sound (r : regex) : forall base, step_sound r base (rmatch r base).
Proof.
  induction r as [|c|items|r1 IH1 r2 IH2|lo hi r IH|r IH];
    intros base s cs k res; cbn [rmatch].
  - intros Hk. exists EmptyString, s, cs.
    split; [reflexivity|]. split; [constructor|]. split; [exact Hk|].
    apply caps_rel_refl; right; reflexivity.
  - destruct s as [|d s]; [discriminate|].
    destruct (ascii_eqb (lower c) (lower d)) eqn:E; [|discriminate].
    intros Hk. exists (String d EmptyString), s, cs.
    split; [reflexivity|].
    split; [constructor; now apply Ascii.eqb_eq|]. split; [exact Hk|].
    apply caps_rel_refl; right; reflexivity.
  - destruct s as [|d s]; [discriminate|].
    destruct (existsb (item_match d) items) eqn:E; [|discriminate].
    intros Hk. exists (String d EmptyString), s, cs.
    split; [reflexivity|]. split; [now constructor|]. split; [exact Hk|].
    apply caps_rel_refl; right; reflexivity.
  - intros E.
    destruct (IH1 _ _ _ _ _ E) as (w1 & s1 & cs1 & -> & Hm1 & Hk1 & C1).
    destruct (IH2 _ _ _ _ _ Hk1) as (w2 & s2 & cs2 & -> & Hm2 & Hk2 & C2).
    exists (w1 ++ w2), s2, cs2.
    split; [now rewrite str_app_assoc|].
    split; [now constructor|]. split; [exact Hk2|].
    now apply caps_rel_seq with cs1.
  - apply repeat_loop_sound, IH.
  - intros E.
    destruct (IH _ _ _ _ _ E) as (w & s' & cs1 & -> & Hm & Hk & [A B]).
    rewrite str_take_app in Hk.
    exists w, s', (<[S base := w]> cs1).
    split; [reflexivity|]. split; [now constructor|]. split; [exact Hk|]. split.
    + intros i v Hv. cbn [group_body].
      destruct (Nat.eqb_spec i (S base)) as [->|Hne].
      * rewrite lookup_insert_eq in Hv. injection Hv as <-.
        right. exists r. repeat split; auto. apply occurs_prefix.
      * rewrite lookup_insert_ne in Hv by congruence.
        destruct (A _ _ Hv) as [H|H]; auto.
    + intros i Hi. cbn [sets_group] in Hi.
      destruct (decide (i = S base)) as [Heq|Hne].
      * subst i. rewrite lookup_insert_eq. eauto.
      * rewrite lookup_insert_ne by congruence. apply B.
        destruct Hi as [Hi|Hi]; [now left|right].
        apply Nat.eqb_neq in Hne. now rewrite Hne in Hi.
Qed.

Lemma head_match_sound (r : regex) (s s' : string) (cs : gmap nat string) :
  rmatch r 0 s ∅ (fun s' cs => Some (s', cs)) = Some (s', cs) ->
  exists w,
    s = w ++ s' /\ matches r w /\
    String.length s - String.length s' = String.length w /\
    (forall i v, cs !! i = Some v ->
       exists g, group_body r 0 i = Some g /\ matches g v /\ occurs v s) /\
    (forall i, sets_group r 0 i = true -> is_Some (cs !! i)).
Proof.
  intros E.
  destruct (rmatch_sound r 0 _ _ _ _ E) as (w & s1 & cs1 & Hs & Hm & Hk & A & B).
  injection Hk as -> ->.
  exists w. split; [exact Hs|]. split; [exact Hm|].
  split; [rewrite Hs, str_length_app; lia|]. split.
  - intros i v Hv. destruct (A _ _ Hv) as [H|H]; [now rewrite lookup_empty in H|exact H].
  - intros i Hi. apply B. now right.
Qed.

Lemma search_from_sound (r : regex) (s : string) :
  forall pos m, search_from r pos s = Some m ->
    exists pre w post,
      s = pre ++ w ++ post /\ matches r w /\
      m_start m = pos + String.length pre /\
      m_end m = m_start m + String.length w /\
      (forall i v, m_caps m !! i = Some v ->
         exists g, group_body r 0 i = Some g /\ matches g v /\ occurs v s) /\
      (forall i, sets_group r 0 i = true -> is_Some (m_caps m !! i)).
Proof.
  assert (Head : forall s pos s' cs,
            rmatch r 0 s ∅ (fun s' cs => Some (s', cs)) = Some (s', cs) ->
            let m := mkMatch (ngroups r) cs pos
                       (pos + (String.length s - String.length s')) in
            exists pre w post,
              s = pre ++ w ++ post /\ matches r w /\
              m_start m = pos + String.length pre /\
              m_end m = m_start m + String.length w /\
              (forall i v, m_caps m !! i = Some v ->
                 exists g, group_body r 0 i = Some g /\ matches g v /\ occurs v s) /\
              (forall i, sets_group r 0 i = true -> is_Some (m_caps m !! i))).
  { intros t pos s' cs E m.
    destruct (head_match_sound _ _ _ _ E) as (w & Hs & Hm & Hl & A & B).
    exists EmptyString, w, s'. subst m. cbn [m_start m_end m_caps String.length].
    split; [exact Hs|]. split; [exact Hm|]. split; [lia|]. split; [lia|].
    split; assumption. }
  induction s as [|c s IH]; intros pos m; cbn [search_from];
    destruct (rmatch r 0 _ ∅ _) as [[s' cs]|] eqn:E.
  - intros [= <-]. now apply Head.
  - discriminate.
  - intros [= <-]. now apply Head.
  - intros Hm.
    destruct (IH _ _ Hm) as (pre & w & post & -> & Hw & Hst & Hen & A & B).
    exists (String c pre), w, post. rewrite str_app_cons.
    split; [reflexivity|]. split; [exact Hw|].
    cbn [String.length]. split; [lia|]. split; [exact Hen|]. split; [|exact B].
    intros i v Hv. destruct (A _ _ Hv) as (g & Hg & Hmg & Ho).
    exists g. repeat split; auto. now apply occurs_cons.
Qed.

Lemma all_ascii_complete (d : ascii) : In d all_ascii.
Proof.
  unfold all_ascii. rewrite <- (ascii_nat_embedding d).
  apply in_map, in_seq. pose proof (nat_ascii_bounded d). lia.
Qed.

Lemma str_forall_app (p : ascii -> bool) (a b : string) :
  str_forall p (a ++ b) = str_forall p a && str_forall p b.
Proof.
  induction a as [|c a IH]; [reflexivity|].
  rewrite str_app_cons. cbn [str_forall]. now rewrite IH, andb_assoc.
Qed.

Lemma chars_ok_sound (p : ascii -> bool) (r : regex) (w : string) :
  matches r w -> chars_ok p r = true -> str_forall p w = true.
Proof.
  induction 1 as [|c d Hcd|items d Hd|r1 r2 w1 w2 _ IH1 _ IH2| |lo hi r w1 w2 _ _ IH1 _ IH2|r w _ IH];
    cbn [chars_ok str_forall]; intros Hok; try reflexivity.
  - rewrite forallb_forall in Hok. specialize (Hok d (all_ascii_complete d)).
    unfold ascii_eqb in Hok. rewrite Hcd, Ascii.eqb_refl in Hok.
    cbn in Hok. now rewrite Hok.
  - rewrite forallb_forall in Hok. specialize (Hok d (all_ascii_complete d)).
    rewrite Hd in Hok. cbn in Hok. now rewrite Hok.
  - apply andb_true_iff in Hok as [H1 H2].
    now rewrite str_forall_app, IH1, IH2.
  - now rewrite str_forall_app, IH1, IH2.
  - now apply IH.
Qed.

Lemma min_len_sound (r : regex) (w : string) :
  matches r w -> min_len r <= String.length w.
Proof.
  induction 1 as [| | |r1 r2 w1 w2 _ IH1 _ IH2| |lo hi r w1 w2 _ _ IH1 _ IH2|r w _ IH];
    cbn [min_len String.length] in *; rewrite ?str_length_app; try lia.
  destruct lo as [|lo]; cbn [pred] in *; lia.
Qed.

Lemma max_len_sound (r : regex) (w : string) :
  matches r w -> forall n, max_len r = Some n -> String.length w <= n.
Proof.
  induction 1 as [| | |r1 r2 w1 w2 _ IH1 _ IH2|hi r|lo hi r w1 w2 Hhi _ IH1 _ IH2|r w _ IH];
    cbn [max_len String.length] in *; intros n Hn;
    rewrite ?str_length_app.
  - injection Hn as <-; lia.
  - injection Hn as <-; lia.
  - injection Hn as <-; lia.
  - destruct (max_len r1) as [a|]; [|discriminate].
    destruct (max_len r2) as [b|]; [|discriminate].
    injection Hn as <-. specialize (IH1 _ eq_refl). specialize (IH2 _ eq_refl). lia.
  - lia.
  - destruct hi as [h|]; [|discriminate]. cbn [dec_hi] in IH2.
    destruct (max_len r) as [a|]; [|discriminate].
    injection Hn as <-. specialize (IH1 _ eq_refl). specialize (IH2 _ eq_refl).
    assert (Nat.max lo h = S (Nat.max (pred lo) (pred h))) as ->.
    { destruct lo as [|lo]; [|destruct h; simpl; lia].
      specialize (Hhi eq_refl). destruct h; [discriminate|simpl; lia]. }
    lia.
  - now apply IH.
Qed.

Lemma needs_digit_sound (r : regex) (w : string) :
  matches r w -> needs_digit r = true -> no_digit w = false.
Proof.
  unfold no_digit.
  induction 1 as [| |items d Hd|r1 r2 w1 w2 _ IH1 _ IH2| |lo hi r w1 w2 _ _ IH1 _ IH2|r w _ IH];
    cbn [needs_digit str_forall]; intros Hn; try discriminate.
  - rewrite forallb_forall in Hn.
    apply existsb_exists in Hd as (i & Hi & Hm).
    specialize (Hn i Hi). destruct i; try discriminate.
    cbn [item_match] in Hm. now rewrite Hm.
  - rewrite str_forall_app.
    apply orb_true_iff in Hn as [Hn|Hn]; [rewrite (IH1 Hn)|rewrite (IH2 Hn)];
      [reflexivity|apply andb_false_r].
  - apply andb_true_iff in Hn as [_ Hn].
    now rewrite str_forall_app, (IH1 Hn).
  - now apply IH.
Qed.

Lemma no_digit_occurs (v s : string) :
  occurs v s -> no_digit s = true -> no_digit v = true.
Proof.
  intros (a & b & ->). unfold no_digit. rewrite !str_forall_app.
  intros H. apply andb_true_iff in H as [_ H].
  now apply andb_true_iff in H as [H _].
Qed.

(* ===================================================================== *)
(** ** What [find_pattern] can return *)
(* ===================================================================== *)

Lemma re_search_sound (p : regex) (text : string) (m : Match) :
  re_search p text = Some m ->
  (exists pre w post, text = pre ++ w ++ post /\ matches p w /\
     m_start m = String.length pre /\ m_end m = m_start m + String.length w) /\
  (forall i v, m_caps m !! i = Some v ->
     exists g, group_body p 0 i = Some g /\ matches g v /\ occurs v text) /\
  (forall i, sets_group p 0 i = true -> is_Some (m_caps m !! i)).
Proof.
  intros H. destruct (search_from_sound _ _ _ _ H)
    as (pre & w & post & Hs & Hw & Hst & Hen & A & B).
  split; [|split; assumption].
  exists pre, w, post. repeat split; auto.
Qed.

Lemma find_pattern_some_inv (text : string) (patterns : list regex) (v : string) :
  find_pattern text patterns = Ok (Some v) ->
  exists p m, In p patterns /\ re_search p text = Some m /\ m_caps m !! 1 = Some v.
Proof.
  induction patterns as [|p ps IH]; cbn [find_pattern]; [discriminate|].
  destruct (re_search p text) as [m|] eqn:E.
  - unfold group. destruct (1 <=? m_groups m)%nat; [|discriminate].
    intros [= H]. exists p, m. repeat split; auto. now left.
  - intros H. destruct (IH H) as (q & m & Hq & Hm & Hv).
    exists q, m. repeat split; auto. now right.
Qed.

Lemma find_pattern_result_in_text_aux (text : string) (patterns : list regex)
    (v : string) :
  find_pattern text patterns = Ok (Some v) ->
  occurs v text /\
  exists p g,
    In p patterns /\ group_body p 0 1 = Some g /\ matches g v.
Proof.
  intros H. destruct (find_pattern_some_inv _ _ _ H) as (p & m & Hp & Hm & Hv).
  destruct (re_search_sound _ _ _ Hm) as (_ & A & _).
  destruct (A _ _ Hv) as (g & Hg & Hmg & Ho).
  split; [exact Ho|]. exists p, g. repeat split; auto.
Qed.

(** X1. Whatever the patterns, a value returned by [find_pattern] is a
    piece of the text, and it is a word of the first group of one of the
    patterns, which matches somewhere in the text. *)
Theorem find_pattern_result_in_text (text : string) (patterns : list regex)
    (v : string) :
  find_pattern text patterns = Ok (Some v) ->
  occurs v text /\
  exists p g,
    In p patterns /\ re_search p text <> None /\
    group_body p 0 1 = Some g /\ matches g v.
Proof.
  intros H. destruct (find_pattern_some_inv _ _ _ H) as (p & m & Hp & Hm & Hv).
  destruct (re_search_sound _ _ _ Hm) as (_ & A & _).
  destruct (A _ _ Hv) as (g & Hg & Hmg & Ho).
  split; [exact Ho|]. exists p, g. repeat split; auto. now rewrite Hm.
Qed.

Lemma find_pattern_result_in_text_witness :
  occurs "100" "200 Invoice #: 100".
Proof.
  apply (find_pattern_result_in_text "200 Invoice #: 100"
           [label_qualified; bare_number] "100").
  vm_compute. reflexivity.
Defined.

Lemma str_length_nonempty (s : string) : 1 <= String.length s -> s <> EmptyString.
Proof. destruct s; simpl; [lia|discriminate]. Qed.

Lemma str_filter_id (p : ascii -> bool) (s : string) :
  str_forall p s = true -> str_filter p s = s.
Proof.
  induction s as [|c s IH]; cbn [str_forall str_filter]; [reflexivity|].
  intros H. apply andb_true_iff in H as [H1 H2]. now rewrite H1, IH.
Qed.

Lemma number_pattern_result (text n : string) :
  find_pattern text Patterns.NUMBER = Ok (Some n) ->
  n <> EmptyString /\ str_forall is_digit n = true /\ occurs n text.
Proof.
  intros H.
  destruct (find_pattern_result_in_text_aux _ _ _ H) as (Ho & p & g & Hp & Hg & Hm).
  assert (g = plus digit) as ->.
  { destruct Hp as [<-|[<-|[<-|[<-|[]]]]]; vm_compute in Hg; injection Hg as <-;
      reflexivity. }
  split; [|split; [|exact Ho]].
  - apply str_length_nonempty. apply (min_len_sound _ _ Hm).
  - apply (chars_ok_sound _ _ _ Hm). vm_compute. reflexivity.
Qed.


(** X2. A number found with the patterns of [Patterns.NUMBER] is a
    non-empty string of digits that occurs in the text. *)
Theorem number_is_digits (text n : string) :
  find_pattern text Patterns.NUMBER = Ok (Some n) ->
  n <> EmptyString /\ str_forall is_digit n = true /\ occurs n text.
Proof. apply number_pattern_result. Qed.

Lemma number_is_digits_witness :
  "100" <> EmptyString /\ str_forall is_digit "100" = true /\
  occurs "100" "Fatura: 100 de 2024".
Proof.
  apply (number_is_digits "Fatura: 100 de 2024" "100").
  vm_compute. reflexivity.
Defined.

Lemma date_pattern_result (text d : string) :
  find_pattern text Patterns.DATE = Ok (Some d) ->
  matches Patterns.date_body d /\
  8 <= String.length d <= 10 /\
  str_forall date_char d = true /\
  occurs d text.
Proof.
  intros H.
  destruct (find_pattern_result_in_text_aux _ _ _ H) as (Ho & p & g & Hp & Hg & Hm).
  assert (g = Patterns.date_body) as ->.
  { destruct Hp as [<-|[<-|[<-|[]]]]; vm_compute in Hg; injection Hg as <-;
      reflexivity. }
  split; [exact Hm|]. split; [|split; [|exact Ho]].
  - split; [apply (min_len_sound _ _ Hm)|].
    apply (max_len_sound _ _ Hm). reflexivity.
  - apply (chars_ok_sound _ _ _ Hm). vm_compute. reflexivity.
Qed.


(** X3. A date found with the patterns of [Patterns.DATE] occurs in the
    text and has the shape of one or two digits, a slash or hyphen, one
    or two digits, a slash or hyphen, and four digits: its length is
    between 8 and 10.  Nothing checks that it is a date of the calendar. *)
Theorem date_shape (text d : string) :
  find_pattern text Patterns.DATE = Ok (Some d) ->
  matches Patterns.date_body d /\
  8 <= String.length d <= 10 /\
  str_forall date_char d = true /\
  occurs d text.
Proof. apply date_pattern_result. Qed.

Lemma date_shape_witness :
  8 <= String.length "99-99/0000" <= 10.
Proof.
  apply (date_shape "Data 99-99/0000" "99-99/0000").
  vm_compute. reflexivity.
Defined.

(** X4. A value text found with the patterns of [Patterns.VALUE] occurs
    in the text, is not empty and has only digits, dots and commas, so
    the substitution at the head of [clean_value] leaves it unchanged. *)
Theorem value_text_alphabet (text raw : string) :
  find_pattern text Patterns.VALUE = Ok (Some raw) ->
  raw <> EmptyString /\
  str_forall keep_char raw = true /\
  str_filter keep_char raw = raw /\
  occurs raw text.
Proof.
  intros H.
  destruct (find_pattern_result_in_text_aux _ _ _ H) as (Ho & p & g & Hp & Hg & Hm).
  assert (G : 1 <= min_len g /\ chars_ok keep_char g = true).
  { destruct Hp as [<-|[<-|[<-|[<-|[]]]]]; vm_compute in Hg; injection Hg as <-;
      (split; [vm_compute; lia|vm_compute; reflexivity]). }
  destruct G as [G1 G2].
  pose proof (chars_ok_sound _ _ _ Hm G2) as K.
  split; [|split; [exact K|split; [now apply str_filter_id|exact Ho]]].
  apply str_length_nonempty. pose proof (min_len_sound _ _ Hm). lia.
Qed.

Lemma value_text_alphabet_witness :
  str_filter keep_char "1.000,00." = "1.000,00.".
Proof.
  apply (value_text_alphabet "Valor: R$ 1.000,00. Obrigado" "1.000,00.").
  vm_compute. reflexivity.
Defined.

Lemma find_pattern_none_iff (text : string) (patterns : list regex) :
  Forall (fun p => sets_group p 0 1 = true) patterns ->
  (find_pattern text patterns = Ok None <->
   Forall (fun q => re_search q text = None) patterns).
Proof.
  intros Hs. split.
  - induction Hs as [|p ps Hp _ IH]; cbn [find_pattern]; [constructor|].
    destruct (re_search p text) as [m|] eqn:E.
    + destruct (re_search_sound _ _ _ E) as (_ & _ & B).
      destruct (B 1 Hp) as [v Hv].
      unfold group. destruct (1 <=? m_groups m)%nat; [|discriminate].
      rewrite Hv. discriminate.
    + intros H. constructor; auto.
  - intros Hn. rewrite <- (app_nil_r patterns).
    now rewrite (find_pattern_skip _ _ _ Hn).
Qed.

Lemma source_patterns_set_group1 :
  Forall (fun p => sets_group p 0 1 = true) Patterns.NUMBER /\
  Forall (fun p => sets_group p 0 1 = true) Patterns.DATE /\
  Forall (fun p => sets_group p 0 1 = true) Patterns.VALUE.
Proof. repeat split; repeat constructor. Qed.

(** X5. With the pattern lists of the source the group of a matching
    pattern always takes part in the match: a field is absent exactly
    when none of its patterns matches anywhere in the text. *)
Theorem field_absent_iff_no_match (text : string) :
  (find_pattern text Patterns.NUMBER = Ok None <->
   Forall (fun q => re_search q text = None) Patterns.NUMBER) /\
  (find_pattern text Patterns.DATE = Ok None <->
   Forall (fun q => re_search q text = None) Patterns.DATE) /\
  (find_pattern text Patterns.VALUE = Ok None <->
   Forall (fun q => re_search q text = None) Patterns.VALUE).
Proof.
  destruct source_patterns_set_group1 as (N & D & V).
  repeat split; now apply find_pattern_none_iff.
Qed.

Lemma needs_digit_no_match (q : regex) (text : string) :
  needs_digit q = true -> no_digit text = true -> re_search q text = None.
Proof.
  intros Hq Ht. destruct (re_search q text) as [m|] eqn:E; [|reflexivity].
  destruct (re_search_sound _ _ _ E) as ((pre & w & post & Hs & Hw & _) & _).
  pose proof (needs_digit_sound _ _ Hw Hq) as Hd.
  assert (Ho : occurs w text) by (exists pre, post; exact Hs).
  now rewrite (no_digit_occurs _ _ Ho Ht) in Hd.
Qed.

Lemma find_pattern_no_digit (text : string) (patterns : list regex) :
  forallb needs_digit patterns = true -> no_digit text = true ->
  find_pattern text patterns = Ok None.
Proof.
  intros Hp Ht. rewrite <- (app_nil_r patterns).
  rewrite find_pattern_skip; [reflexivity|].
  rewrite forallb_forall in Hp. apply List.Forall_forall. intros q Hq.
  apply needs_digit_no_match; auto.
Qed.

(* ===================================================================== *)
(** ** When [clean_value] finds a number *)
(* ===================================================================== *)

Lemma split_dot_spec (s : string) :
  match split_dot s with
  | (ip, None) => s = ip /\ count_char "." s = 0
  | (ip, Some fp) =>
      s = ip ++ String "." fp /\ count_char "." ip = 0
  end.
Proof.
  induction s as [|c s IH]; cbn [split_dot]; [split; reflexivity|].
  destruct (ascii_eqb c ".") eqn:E.
  - apply Ascii.eqb_eq in E. subst c. split; reflexivity.
  - destruct (split_dot s) as [a [b|]]; destruct IH as [-> H];
      rewrite ?str_app_cons; cbn [count_char]; rewrite E; split; auto.
Qed.

Lemma decimal_value_some (s : string) :
  forall acc, is_Some (decimal_value acc s) <-> str_forall is_digit s = true.
Proof.
  induction s as [|c s IH]; intros acc; cbn [decimal_value str_forall].
  - split; eauto.
  - destruct (is_digit c); cbn [andb]; [apply IH|].
    split; [intros [x H]; discriminate|discriminate].
Qed.

Lemma count_char_app (c : ascii) (a b : string) :
  count_char c (a ++ b) = count_char c a + count_char c b.
Proof.
  induction a as [|d a IH]; [reflexivity|].
  rewrite str_app_cons. cbn [count_char]. rewrite IH. lia.
Qed.

Lemma digits_no_dots (s : string) :
  str_forall is_digit s = true -> count_char "." s = 0.
Proof.
  induction s as [|c s IH]; cbn [str_forall count_char]; [reflexivity|].
  intros H. apply andb_true_iff in H as [H1 H2]. rewrite (IH H2).
  destruct (ascii_eqb c ".") eqn:E; [|reflexivity].
  apply Ascii.eqb_eq in E. subst c. discriminate.
Qed.

Lemma alphabet_no_dots_digits (s : string) :
  str_forall digit_or_dot s = true -> count_char "." s = 0 ->
  str_forall is_digit s = true.
Proof.
  induction s as [|c s IH]; cbn [str_forall count_char]; [reflexivity|].
  intros H Hc. apply andb_true_iff in H as [H1 H2].
  unfold digit_or_dot in H1.
  destruct (ascii_eqb c "."); [discriminate|].
  rewrite orb_false_r in H1. rewrite H1, IH; auto.
Qed.

Lemma digits_nonempty_iff (s : string) :
  str_forall is_digit s = true ->
  (str_truthy s = true <-> no_digit s = false).
Proof.
  unfold no_digit. destruct s as [|c s]; cbn [str_forall str_truthy].
  - intros _. split; discriminate.
  - intros H. apply andb_true_iff in H as [H1 _]. rewrite H1. cbn. tauto.
Qed.

Lemma no_digit_app (a b : string) :
  no_digit (a ++ b) = no_digit a && no_digit b.
Proof. apply str_forall_app. Qed.

(** [float] accepts a string of digits and dots exactly when it has a
    digit and at most one dot. *)
Lemma py_float_ok_iff (d : string) :
  str_forall digit_or_dot d = true ->
  (is_ok (py_float d) = true <->
   no_digit d = false /\ count_char "." d <= 1).
Proof.
  intros Ha. unfold py_float.
  pose proof (split_dot_spec d) as S.
  destruct (split_dot d) as [ip [fp|]].
  - destruct S as [-> Hip].
    rewrite str_forall_app in Ha. apply andb_true_iff in Ha as [Ha1 Ha2].
    cbn [str_forall] in Ha2. apply andb_true_iff in Ha2 as [_ Ha2].
    pose proof (alphabet_no_dots_digits _ Ha1 Hip) as Dip.
    rewrite count_char_app, no_digit_app. cbn [count_char].
    change (no_digit (String "." fp)) with (no_digit fp).
    rewrite <- no_digit_app. rewrite Hip.
    replace (ascii_eqb "." ".") with true by reflexivity.
    destruct (str_forall is_digit fp) eqn:Dfp.
    + assert (D : str_forall is_digit (ip ++ fp) = true)
        by now rewrite str_forall_app, Dip, Dfp.
      rewrite (digits_no_dots _ Dfp).
      destruct (proj2 (decimal_value_some (ip ++ fp) 0) D) as [m ->].
      pose proof (digits_nonempty_iff _ D) as N.
      destruct (str_truthy (ip ++ fp)); cbn [is_ok].
      * split; [intros _; split; [now apply N|lia]|reflexivity].
      * split; [discriminate|]. intros [H _]. apply N in H. discriminate.
    + assert (C : count_char "." fp <> 0).
      { intros C. now rewrite (alphabet_no_dots_digits _ Ha2 C) in Dfp. }
      assert (D : decimal_value 0 (ip ++ fp) = None).
      { destruct (decimal_value 0 (ip ++ fp)) eqn:E; [|reflexivity].
        assert (Hs : is_Some (decimal_value 0 (ip ++ fp))) by (rewrite E; eauto).
        apply decimal_value_some in Hs.
        rewrite str_forall_app, Dfp, andb_false_r in Hs. discriminate. }
      rewrite D. destruct (str_truthy (ip ++ fp)); cbn [is_ok];
        (split; [discriminate|intros [_ H]; lia]).
  - destruct S as [<- Hd]. rewrite str_app_nil_r, Hd.
    pose proof (alphabet_no_dots_digits _ Ha Hd) as D.
    destruct (proj2 (decimal_value_some d 0) D) as [m ->].
    pose proof (digits_nonempty_iff _ D) as N.
    destruct (str_truthy d); cbn [is_ok].
    + split; [intros _; split; [now apply N|lia]|reflexivity].
    + split; [discriminate|]. intros [H _]. apply N in H. discriminate.
Qed.

Lemma count_char_filter (c : ascii) (keep : ascii -> bool) (s : string) :
  keep c = true -> count_char c (str_filter keep s) = count_char c s.
Proof.
  intros Hk. induction s as [|d s IH]; cbn [str_filter count_char]; [reflexivity|].
  destruct (keep d) eqn:E; cbn [count_char]; rewrite IH; [reflexivity|].
  destruct (ascii_eqb d c) eqn:Edc; [|reflexivity].
  apply Ascii.eqb_eq in Edc. subst d. congruence.
Qed.

Lemma no_digit_filter (keep : ascii -> bool) (s : string) :
  (forall c, is_digit c = true -> keep c = true) ->
  no_digit (str_filter keep s) = no_digit s.
Proof.
  intros Hk. unfold no_digit.
  induction s as [|d s IH]; cbn [str_filter str_forall]; [reflexivity|].
  destruct (keep d) eqn:E; cbn [str_forall]; rewrite IH; [reflexivity|].
  destruct (is_digit d) eqn:Ed; [|reflexivity].
  rewrite (Hk _ Ed) in E. discriminate.
Qed.

Lemma str_in_count (c : ascii) (s : string) :
  str_in c s = negb (count_char c s =? 0)%nat.
Proof.
  induction s as [|d s IH]; cbn [str_in count_char]; [reflexivity|].
  unfold ascii_eqb in *. rewrite (Ascii.eqb_sym c d).
  destruct (Ascii.eqb d c); [reflexivity|]. exact IH.
Qed.

Lemma count_dot_replace_comma (t : string) :
  count_char "." (Spec.replace_all "," "." t)
  = count_char "," t + count_char "." t.
Proof.
  induction t as [|d t IH]; cbn [Spec.replace_all count_char]; [reflexivity|].
  rewrite IH. destruct (ascii_eqb d ",") eqn:E.
  - apply Ascii.eqb_eq in E. subst d. reflexivity.
  - destruct (ascii_eqb d "."); lia.
Qed.

Lemma no_digit_replace_comma (t : string) :
  no_digit (Spec.replace_all "," "." t) = no_digit t.
Proof.
  unfold no_digit.
  induction t as [|d t IH]; cbn [Spec.replace_all str_forall]; [reflexivity|].
  rewrite IH. destruct (ascii_eqb d ",") eqn:E; [|reflexivity].
  apply Ascii.eqb_eq in E. subst d. reflexivity.
Qed.

Lemma count_remove_all (c d : ascii) (t : string) :
  count_char c (Spec.remove_all d t)
  = if ascii_eqb c d then 0 else count_char c t.
Proof.
  unfold Spec.remove_all.
  induction t as [|x t IH]; cbn [str_filter count_char].
  - now destruct (ascii_eqb c d).
  - destruct (ascii_eqb x d) eqn:Exd; cbn [negb count_char]; rewrite IH.
    + apply Ascii.eqb_eq in Exd. subst x.
      destruct (ascii_eqb c d) eqn:Ecd; [reflexivity|].
      unfold ascii_eqb in *. rewrite Ascii.eqb_sym, Ecd. reflexivity.
    + destruct (ascii_eqb c d) eqn:Ecd; [|reflexivity].
      apply Ascii.eqb_eq in Ecd. subst c. now rewrite Exd.
Qed.

Lemma no_digit_remove_dot (t : string) :
  no_digit (Spec.remove_all "." t) = no_digit t.
Proof.
  apply no_digit_filter. intros c Hc.
  destruct (ascii_eqb c ".") eqn:E; [|reflexivity].
  apply Ascii.eqb_eq in E. subst c. discriminate.
Qed.

(** The separator that decides: the comma when there is one, the dot
    otherwise. *)
Lemma disambiguate_counts (s : string) :
  let d := Spec.disambiguate (Spec.strip s) in
  no_digit d = no_digit s /\
  count_char "." d
  = (if str_in "," s then count_char "," s else count_char "." s).
Proof.
  assert (Hn : no_digit (Spec.strip s) = no_digit s).
  { apply no_digit_filter. intros c Hc. now rewrite Hc. }
  assert (Hd : count_char "." (Spec.strip s) = count_char "." s)
    by now apply count_char_filter.
  assert (Hc : count_char "," (Spec.strip s) = count_char "," s)
    by now apply count_char_filter.
  cbv zeta. unfold Spec.disambiguate.
  rewrite !(str_in_count _ (Spec.strip s)), (str_in_count "," s), Hd, Hc.
  destruct (count_char "." s =? 0)%nat eqn:Ed,
           (count_char "," s =? 0)%nat eqn:Ec; cbn [negb].
  - auto.
  - rewrite no_digit_replace_comma, count_dot_replace_comma, Hd.
    apply Nat.eqb_eq in Ed. split; [exact Hn|lia].
  - auto.
  - rewrite no_digit_replace_comma, no_digit_remove_dot, count_dot_replace_comma,
      !count_remove_all.
    replace (ascii_eqb "," ".") with false by reflexivity.
    replace (ascii_eqb "." ".") with true by reflexivity.
    split; [exact Hn|lia].
Qed.

Lemma clean_value_some_iff (s : string) :
  (exists x, clean_value (Some s) = Ok (Some x)) <->
  no_digit s = false /\
  (if str_in "," s then count_char "," s else count_char "." s) <= 1.
Proof.
  rewrite clean_value_normalize. unfold Spec.normalize, Spec.parse_decimal.
  destruct (disambiguate_counts s) as [Hn Hc].
  pose proof (py_float_ok_iff _ (cleaned_alphabet s)) as F.
  rewrite Hn, Hc in F.
  destruct (py_float (Spec.disambiguate (Spec.strip s))) as [x|e]; cbn [is_ok] in F.
  - split; [intros _; now apply F|eauto].
  - split; [intros [x H]; discriminate|]. intros H. apply F in H. discriminate.
Qed.

Lemma clean_value_no_digit (s : string) :
  no_digit s = true -> clean_value (Some s) = Ok None.
Proof.
  intros H. destruct (clean_value_never_raises (Some s)) as [[x|] E]; [|exact E].
  assert (Hx : exists x, clean_value (Some s) = Ok (Some x)) by eauto.
  apply clean_value_some_iff in Hx as [Hx _]. congruence.
Qed.

(** X7. [clean_value] finds a number exactly when the text has a digit
    and its decimal separator, the comma when there is one and the dot
    otherwise, occurs at most once; in every other case it returns
    absent. *)
Theorem clean_value_parses_iff (s : string) :
  ((exists x, clean_value (Some s) = Ok (Some x)) <->
   no_digit s = false /\
   (if str_in "," s then count_char "," s else count_char "." s) <= 1) /\
  (clean_value (Some s) = Ok None <->
   ~ (no_digit s = false /\
      (if str_in "," s then count_char "," s else count_char "." s) <= 1)).
Proof.
  split; [apply clean_value_some_iff|].
  rewrite <- clean_value_some_iff.
  destruct (clean_value_never_raises (Some s)) as [[x|] E]; rewrite E.
  - split; [discriminate|]. intros H. exfalso. apply H. eauto.
  - split; [|reflexivity]. intros _ [x H]. discriminate.
Qed.

(** X8. Characters other than digits, dots and commas have no influence on
    the result of [clean_value]: signs, currency symbols, letters and
    blanks are dropped before anything is read. *)
Theorem clean_value_ignores_other_chars (s : string) :
  clean_value (Some s) = clean_value (Some (str_filter keep_char s)).
Proof.
  rewrite !clean_value_normalize. unfold Spec.normalize, Spec.strip.
  fold keep_char.
  change (fun c => is_digit c || ascii_eqb c "." || ascii_eqb c ",") with keep_char.
  now rewrite (str_filter_id keep_char (str_filter keep_char s))
    by apply str_forall_filter.
Qed.

Lemma filter_remove_comm (keep : ascii -> bool) (c : ascii) (s : string) :
  str_filter keep (Spec.remove_all c s) = Spec.remove_all c (str_filter keep s).
Proof.
  unfold Spec.remove_all.
  induction s as [|d s IH]; cbn [str_filter]; [reflexivity|].
  destruct (keep d) eqn:Ek, (ascii_eqb d c) eqn:Ec; cbn [negb str_filter];
    rewrite ?Ek, ?Ec; cbn [negb]; now rewrite IH.
Qed.

(** X9. When the text has a comma, its dots have no influence on the
    result of [clean_value]: they are read as thousands separators and
    dropped, wherever they stand. *)
Theorem clean_value_dots_ignored_with_comma (s : string) :
  str_in "," s = true ->
  clean_value (Some s) = clean_value (Some (Spec.remove_all "." s)).
Proof.
  intros Hc. rewrite !clean_value_normalize. unfold Spec.normalize.
  f_equal. unfold Spec.strip at 2. rewrite filter_remove_comm.
  fold (Spec.strip s). set (t := Spec.strip s).
  assert (Ct : str_in "," t = true).
  { rewrite str_in_count in *. unfold t, Spec.strip.
    now rewrite count_char_filter. }
  assert (Cr : str_in "," (Spec.remove_all "." t) = true).
  { rewrite str_in_count in *. now rewrite count_remove_all. }
  assert (Dr : str_in "." (Spec.remove_all "." t) = false).
  { rewrite str_in_count, count_remove_all. reflexivity. }
  unfold Spec.disambiguate. rewrite Ct, Cr, Dr.
  destruct (str_in "." t) eqn:Dt; [reflexivity|].
  unfold Spec.remove_all. rewrite str_filter_id; [reflexivity|].
  rewrite str_in_count in Dt. apply negb_false_iff, Nat.eqb_eq in Dt.
  clear -Dt. induction t as [|d t IH]; cbn [str_forall count_char] in *; [reflexivity|].
  destruct (ascii_eqb d "."); [discriminate|]. cbn. apply IH. exact Dt.
Qed.

Lemma clean_value_dots_ignored_with_comma_witness :
  clean_value (Some "1.2.3.4,5") = clean_value (Some "1234,5").
Proof.
  apply (clean_value_dots_ignored_with_comma "1.2.3.4,5"). reflexivity.
Defined.

(* ===================================================================== *)
(** ** The sign of a parsed value *)
(* ===================================================================== *)

Lemma shr_1_nonneg (mrs : shr_record) :
  (0 <= shr_m mrs)%Z -> (0 <= shr_m (shr_1 mrs))%Z.
Proof.
  destruct mrs as [m r s']. cbn [shr_m].
  destruct m as [|p|p]; [| |lia]; intros _.
  - reflexivity.
  - destruct p; cbn; lia.
Qed.

Lemma iter_pos_shr_1_nonneg (p : positive) :
  forall mrs, (0 <= shr_m mrs)%Z -> (0 <= shr_m (SpecFloat.iter_pos shr_1 p mrs))%Z.
Proof.
  induction p as [p IH|p IH|]; intros mrs H; cbn [SpecFloat.iter_pos].
  - apply IH, IH, shr_1_nonneg, H.
  - apply IH, IH, H.
  - apply shr_1_nonneg, H.
Qed.

Lemma shr_fexp_nonneg (m e : Z) (l : location) :
  (0 <= m)%Z -> (0 <= shr_m (fst (shr_fexp prec emax m e l)))%Z.
Proof.
  intros H. unfold shr_fexp, shr.
  assert (H0 : (0 <= shr_m (shr_record_of_loc m l))%Z).
  { destruct l as [|[]]; exact H. }
  destruct (_ - e)%Z; cbn [fst]; auto. now apply iter_pos_shr_1_nonneg.
Qed.

Lemma binary_round_aux_nonneg (m e : Z) (l : location) :
  (0 <= m)%Z -> nonneg_float (binary_round_aux prec emax false m e l) = true.
Proof.
  intros H. unfold binary_round_aux.
  pose proof (shr_fexp_nonneg m e l H) as H1.
  destruct (shr_fexp prec emax m e l) as [mrs' e']. cbn [fst] in H1.
  assert (H2 : (0 <= round_nearest_even (shr_m mrs') (loc_of_shr_record mrs'))%Z).
  { unfold round_nearest_even.
    destruct (loc_of_shr_record mrs') as [|[]]; try lia.
    destruct (Z.even (shr_m mrs')); lia. }
  pose proof (shr_fexp_nonneg _ e' loc_Exact H2) as H3.
  destruct (shr_fexp prec emax _ e' loc_Exact) as [mrs'' e'']. cbn [fst] in H3.
  destruct (shr_m mrs'') as [|p|p]; [reflexivity| |lia].
  destruct (Z.leb e'' (emax - prec)); reflexivity.
Qed.

Lemma float_of_decimal_nonneg (m : N) (k : nat) :
  nonneg_float (float_of_decimal m k) = true.
Proof.
  destruct m as [|p]; [reflexivity|].
  unfold float_of_decimal, SFdiv, SFdiv_core_binary.
  set (den := Z.to_pos (10 ^ Z.of_nat k)).
  set (m' := match _ with Zpos _ => _ | Z0 => _ | Zneg _ => _ end).
  assert (Hm : (0 <= m')%Z).
  { subst m'. destruct (_ - _ - _)%Z; try lia. apply Z.shiftl_nonneg. lia. }
  pose proof (Z.div_pos m' (Zpos den) Hm ltac:(lia)) as Hq.
  unfold Z.div in Hq.
  destruct (Z.div_eucl m' (Zpos den)) as [q r].
  cbn [xorb]. now apply binary_round_aux_nonneg.
Qed.

(** X10. A value returned by [clean_value] is never a NaN and never
    negative: it is [+0.0], a positive finite number or [+inf].  A minus
    sign in the text is dropped with the other characters. *)
Theorem clean_value_nonneg (v : option string) (x : float) :
  clean_value v = Ok (Some x) -> nonneg_float x = true.
Proof.
  destruct v as [s|]; [|discriminate].
  rewrite clean_value_normalize. unfold Spec.normalize, Spec.parse_decimal, py_float.
  destruct (split_dot _) as [ip rest].
  destruct (str_truthy _); [|discriminate].
  destruct (decimal_value _ _) as [m|]; [|discriminate].
  intros [= <-]. apply float_of_decimal_nonneg.
Qed.

Lemma clean_value_nonneg_witness :
  nonneg_float (S754_finite false 7036874417766400 (-49)) = true.
Proof.
  apply (clean_value_nonneg (Some "R$ -12,50")). vm_compute. reflexivity.
Defined.

(* ===================================================================== *)
(** ** Records built from the text *)
(* ===================================================================== *)

(** X6. No field is found in a text without digits: a file whose text is
    not empty and has no digit gives the record with the three fields
    absent and status [Processado]. *)
Theorem no_digit_no_fields (env : Env) (pdf_path : Path) :
  fst (extract_text env pdf_path) <> EmptyString ->
  no_digit (fst (extract_text env pdf_path)) = true ->
  process_pdf env source_patterns pdf_path
  = mkInvoice (path_name pdf_path) None None None "Processado".
Proof.
  intros Ht Hd. unfold process_pdf.
  destruct source_patterns_have_group1 as (_ & _ & Gv).
  destruct (find_pattern_never_raises (fst (extract_text env pdf_path)) _ Gv)
    as [raw Hr].
  assert (Hv : clean_value raw = Ok None).
  { destruct raw as [t|]; [|reflexivity].
    apply clean_value_no_digit.
    destruct (find_pattern_result_in_text_aux _ _ _ Hr) as [Ho _].
    now apply no_digit_occurs with (fst (extract_text env pdf_path)). }
  rewrite (process_pdf_log_text env source_patterns pdf_path None None raw None).
  - reflexivity.
  - exact Ht.
  - apply find_pattern_no_digit; [reflexivity|exact Hd].
  - apply find_pattern_no_digit; [reflexivity|exact Hd].
  - exact Hr.
  - exact Hv.
Qed.

Lemma no_digit_no_fields_witness :
  process_pdf sample_env source_patterns ["in"; "plain.pdf"]
  = mkInvoice "plain.pdf" None None None "Processado".
Proof.
  apply (no_digit_no_fields sample_env ["in"; "plain.pdf"]).
  - vm_compute; discriminate.
  - vm_compute; reflexivity.
Defined.

Lemma process_pdf_source_fields (env : Env) (pdf_path : Path) :
  let text := fst (extract_text env pdf_path) in
  let r := process_pdf env source_patterns pdf_path in
  (text = EmptyString /\ number r = None /\ date r = None /\ value r = None) \/
  (text <> EmptyString /\
   find_pattern text Patterns.NUMBER = Ok (number r) /\
   find_pattern text Patterns.DATE = Ok (date r) /\
   exists raw, find_pattern text Patterns.VALUE = Ok raw /\
               clean_value raw = Ok (value r)).
Proof.
  cbv zeta. unfold process_pdf.
  destruct (string_dec (fst (extract_text env pdf_path)) EmptyString) as [E|Ht].
  - left. rewrite (process_pdf_log_empty _ _ _ E). auto.
  - right. split; [exact Ht|].
    destruct source_patterns_have_group1 as (Gn & Gd & Gv).
    destruct (find_pattern_never_raises (fst (extract_text env pdf_path)) _ Gn)
      as [n Hn].
    destruct (find_pattern_never_raises (fst (extract_text env pdf_path)) _ Gd)
      as [d Hd].
    destruct (find_pattern_never_raises (fst (extract_text env pdf_path)) _ Gv)
      as [raw Hr].
    destruct (clean_value_never_raises raw) as [v Hv].
    rewrite (process_pdf_log_text env source_patterns pdf_path n d raw v Ht Hn Hd Hr Hv).
    cbn [fst number date value].
    split; [exact Hn|]. split; [exact Hd|]. exists raw. auto.
Qed.

Lemma str_or_sentinel (x : option string) (p : ascii -> bool) :
  str_forall p not_found = false ->
  (forall v, x = Some v -> v <> EmptyString /\ str_forall p v = true) ->
  (str_or x not_found = CStr not_found <-> x = None).
Proof.
  intros Hnf Hx. destruct x as [v|]; cbn [str_or]; [|tauto].
  destruct (Hx v eq_refl) as [Hne Hp].
  destruct v as [|c v]; [congruence|]. cbn [str_truthy].
  split; [|discriminate]. intros E.
  assert (E' : String c v = not_found) by congruence.
  rewrite E' in Hp. congruence.
Qed.

(** X11. In the row of a record built by [process_pdf], the number cell
    and the date cell hold the sentinel exactly when the field is absent
    (a found number is a digit string of the text, a found date a date
    shape of the text); the value cell holds it exactly when the value is
    absent or is [+0.0]. *)
Theorem processed_record_cells (env : Env) (pdf_path : Path) :
  let text := fst (extract_text env pdf_path) in
  let r := process_pdf env source_patterns pdf_path in
  (to_row r !! 0 = Some (CStr not_found) <-> number r = None) /\
  (to_row r !! 1 = Some (CStr not_found) <-> date r = None) /\
  (to_row r !! 2 = Some (CStr not_found) <->
   value r = None \/ value r = Some (S754_zero false)) /\
  (forall n, number r = Some n ->
     n <> EmptyString /\ str_forall is_digit n = true /\ occurs n text) /\
  (forall d, date r = Some d ->
     matches Patterns.date_body d /\ occurs d text).
Proof.
  cbv zeta.
  set (r := process_pdf env source_patterns pdf_path).
  set (text := fst (extract_text env pdf_path)).
  pose proof (process_pdf_source_fields env pdf_path) as F.
  cbv zeta in F. fold r text in F.
  assert (N : forall n, number r = Some n ->
            n <> EmptyString /\ str_forall is_digit n = true /\ occurs n text).
  { intros n Hn. destruct F as [(_ & H & _)|(_ & H & _)]; [congruence|].
    apply number_pattern_result. now rewrite H, Hn. }
  assert (D : forall d, date r = Some d ->
            matches Patterns.date_body d /\ 8 <= String.length d <= 10 /\
            str_forall date_char d = true /\ occurs d text).
  { intros d Hd. destruct F as [(_ & _ & H & _)|(_ & _ & H & _)]; [congruence|].
    apply date_pattern_result. now rewrite H, Hd. }
  assert (V : forall x, value r = Some x -> nonneg_float x = true).
  { intros x Hx. destruct F as [(_ & _ & _ & H)|(_ & _ & _ & raw & _ & H)];
      [congruence|].
    rewrite Hx in H. clear -H.
    destruct raw as [s|]; [|discriminate].
    rewrite clean_value_normalize in H.
    unfold Spec.normalize, Spec.parse_decimal, py_float in H.
    destruct (split_dot _) as [ip rest].
    destruct (str_truthy _); [|discriminate].
    destruct (decimal_value _ _) as [m|]; [|discriminate].
    injection H as <-. apply float_of_decimal_nonneg. }
  split; [|split; [|split; [|split; [exact N|]]]].
  - unfold to_row. cbn [lookup list_lookup].
    rewrite <- (str_or_sentinel (number r) is_digit); [|reflexivity|].
    + split; congruence.
    + intros v Hv. destruct (N v Hv) as (? & ? & _). auto.
  - unfold to_row. cbn [lookup list_lookup].
    rewrite <- (str_or_sentinel (date r) date_char); [|reflexivity|].
    + split; congruence.
    + intros v Hv. destruct (D v Hv) as (_ & Hl & Hc & _).
      split; [apply str_length_nonempty; lia|exact Hc].
  - rewrite to_row_value_cell. split.
    + intros [H|[s H]]; [now left|right].
      specialize (V _ H). destruct s; [discriminate|exact H].
    + intros [H|H]; [now left|right; eauto].
  - intros d Hd. destruct (D d Hd) as (H1 & _ & _ & H2). auto.
Qed.

Lemma str_app_empty (a b : string) :
  a ++ b = EmptyString -> a = EmptyString /\ b = EmptyString.
Proof. destruct a; [auto|discriminate]. Qed.

Lemma str_join_empty_iff (parts : list string) :
  str_join nl parts = EmptyString <-> parts = [] \/ parts = [EmptyString].
Proof.
  destruct parts as [|x [|y rest]]; cbn [str_join].
  - tauto.
  - split; [intros ->; now right|]. intros [H|[= ->]]; [discriminate|reflexivity].
  - split.
    + intros H. apply str_app_empty in H as [_ H]. discriminate.
    + intros [H|H]; discriminate.
Qed.

Lemma extract_text_empty_iff (env : Env) (pdf_path : Path) :
  fst (extract_text env pdf_path) = EmptyString <->
  (exists e, pdf_pages env pdf_path = Raise e) \/
  pdf_pages env pdf_path = Ok [] \/
  pdf_pages env pdf_path = Ok [None] \/
  pdf_pages env pdf_path = Ok [Some EmptyString].
Proof.
  unfold extract_text.
  destruct (pdf_pages env pdf_path) as [pages|e]; cbn [fst].
  - rewrite str_join_empty_iff. split.
    + intros [H|H].
      * destruct pages; [auto|discriminate].
      * destruct pages as [|[t|] [|? ?]]; try discriminate.
        -- cbn in H. injection H as ->. auto.
        -- auto.
    + intros [[e H]|[H|[H|H]]]; try discriminate; injection H as ->; auto.
  - split; [eauto|reflexivity].
Qed.

(** X12. With the pattern lists of the source, a file is reported as
    empty ([Erro: PDF vazio]) exactly when the reader raised, the file has
    no page, or it has a single page without text.  A file of two pages
    or more is never reported as empty, whatever its pages hold: the line
    feeds that join the pages make its text non-empty. *)
Theorem empty_status_iff (env : Env) (pdf_path : Path) :
  (status (process_pdf env source_patterns pdf_path) = "Erro: PDF vazio" <->
   (exists e, pdf_pages env pdf_path = Raise e) \/
   pdf_pages env pdf_path = Ok [] \/
   pdf_pages env pdf_path = Ok [None] \/
   pdf_pages env pdf_path = Ok [Some EmptyString]) /\
  (forall pages,
     pdf_pages env pdf_path = Ok pages -> 2 <= List.length pages ->
     status (process_pdf env source_patterns pdf_path) = "Processado").
Proof.
  assert (S : status (process_pdf env source_patterns pdf_path) = "Erro: PDF vazio" <->
              fst (extract_text env pdf_path) = EmptyString).
  { unfold process_pdf. split.
    - intros H.
      destruct (string_dec (fst (extract_text env pdf_path)) EmptyString) as [E|E];
        [exact E|].
      destruct (process_pdf_log_source env pdf_path E) as (n & d & v & L).
      rewrite L in H. discriminate.
    - intros E. now rewrite (process_pdf_log_empty _ _ _ E). }
  split; [now rewrite S, extract_text_empty_iff|].
  intros pages Hp Hl.
  assert (E : fst (extract_text env pdf_path) <> EmptyString).
  { rewrite extract_text_empty_iff, Hp.
    intros [[e H]|[H|[H|H]]]; try discriminate; injection H as ->;
      cbn in Hl; lia. }
  destruct (process_pdf_log_source env pdf_path E) as (n & d & v & L).
  unfold process_pdf. now rewrite L.
Qed.

Lemma empty_status_iff_witness :
  status (process_pdf sample_env source_patterns ["in"; "a.pdf"]) = "Processado".
Proof.
  apply (proj2 (empty_status_iff sample_env ["in"; "a.pdf"])
           [Some "Invoice #: 100";
            Some ("Data: 01/02/2024" ++ nl ++ "Total: R$ 1.000,00")]).
  - reflexivity.
  - cbn. lia.
Defined.

(** X13. When a step of [process_pdf] raises, the record keeps the fields
    set before it, leaves the others absent, and takes the status [Erro: ]
    followed by the message; the line with the fields is not printed. *)
Theorem process_pdf_partial_failure (env : Env) (patterns : PatternSets)
    (pdf_path : Path) (e : exn) :
  let text := fst (extract_text env pdf_path) in
  let name := path_name pdf_path in
  let out := snd (extract_text env pdf_path) in
  text <> EmptyString ->
  (find_pattern text (P_NUMBER patterns) = Raise e ->
   process_pdf_log env patterns pdf_path
   = (mkInvoice name None None None ("Erro: " ++ exn_msg e), out)) /\
  (forall n,
     find_pattern text (P_NUMBER patterns) = Ok n ->
     find_pattern text (P_DATE patterns) = Raise e ->
     process_pdf_log env patterns pdf_path
     = (mkInvoice name n None None ("Erro: " ++ exn_msg e), out)) /\
  (forall n d,
     find_pattern text (P_NUMBER patterns) = Ok n ->
     find_pattern text (P_DATE patterns) = Ok d ->
     find_pattern text (P_VALUE patterns) = Raise e ->
     process_pdf_log env patterns pdf_path
     = (mkInvoice name n d None ("Erro: " ++ exn_msg e), out)).
Proof.
  intros text name out Ht.
  unfold process_pdf_log, process_pdf_body. run_try. fold text name out.
  destruct text as [|c t] eqn:E; [congruence|]. cbn [str_truthy negb].
  split; [|split].
  - intros ->. reflexivity.
  - intros n -> ->. reflexivity.
  - intros n d -> -> ->. reflexivity.
Qed.

Lemma process_pdf_partial_failure_witness :
  process_pdf_log sample_env
    (mkPatternSets Patterns.NUMBER [lit "Data"] Patterns.VALUE) ["in"; "a.pdf"]
  = (mkInvoice "a.pdf" (Some "100") None None "Erro: no such group", []).
Proof.
  apply (proj1 (proj2 (process_pdf_partial_failure sample_env
           (mkPatternSets Patterns.NUMBER [lit "Data"] Patterns.VALUE)
           ["in"; "a.pdf"] (Exn IndexError "no such group")
           ltac:(vm_compute; discriminate)))
           (Some "100")).
  - vm_compute; reflexivity.
  - vm_compute; reflexivity.
Defined.

(** X14. With the pattern lists of the source, [process_pdf] prints the
    reader's failure when the reader raises, nothing for a file read
    without text, and otherwise one line that reports the very fields
    stored in the record. *)
Theorem process_pdf_log_lines (env : Env) (pdf_path : Path) :
  let r := process_pdf env source_patterns pdf_path in
  snd (process_pdf_log env source_patterns pdf_path)
  = match pdf_pages env pdf_path with
    | Raise e => [EReadError (path_name pdf_path) e]
    | Ok _ =>
        if str_truthy (fst (extract_text env pdf_path))
        then [EDebug (path_name pdf_path) (number r) (date r) (value r)]
        else []
    end.
Proof.
  cbv zeta. unfold process_pdf.
  destruct (string_dec (fst (extract_text env pdf_path)) EmptyString) as [E|E].
  - rewrite (process_pdf_log_empty _ _ _ E), E. cbn [snd str_truthy].
    unfold extract_text. destruct (pdf_pages env pdf_path); reflexivity.
  - destruct (process_pdf_log_source env pdf_path E) as (n & d & v & L).
    rewrite L. cbn [fst snd number date value].
    unfold extract_text in *. destruct (pdf_pages env pdf_path) as [pages|e].
    + cbn [fst snd] in *.
      destruct (str_join nl (map text_or_empty pages)); [congruence|reflexivity].
    + cbn [fst] in E. congruence.
Qed.

(* ===================================================================== *)
(** ** What [create_excel] builds and returns *)
(* ===================================================================== *)

Section Sheet.

Variable env : Env.








End Sheet.


Section ExactSheet.

Variable env : Env.
Hypothesis accepts : forall c : Cell, cell_check env c = None.





End ExactSheet.


(* ===================================================================== *)
(** ** How [run] and [main] end *)
(* ===================================================================== *)

Lemma run_save_not_false (env : Env) (wb : option Workbook) (ts : string)
    (p : Path) (out : list event) :
  snd (run_save env wb ts p out) <> Ok false.
Proof.
  unfold run_save, save. run_try.
  destruct (save_result env wb p) as [[]|e1]; cbn [snd]; [discriminate|].
  destruct (save_result env wb _) as [[]|e2]; cbn [snd]; discriminate.
Qed.

(** The three ways [run_setup] can end. *)
Lemma run_setup_cases (env : Env) (config : Config) (patterns : PatternSets) :
  (setup_fails env config /\
   ((run_setup env config patterns [] = ([EPdfDirMissing (PDF_DIR config)], Ok ReturnFalse)) \/
    (run_setup env config patterns [] = ([ENoPdf], Ok ReturnFalse)) \/
    (exists e, run_setup env config patterns [] = ([], Raise e)))) \/
  (~ setup_fails env config /\
   exists files invoices out1 wb out2,
     path_glob env (PDF_DIR config) = Ok files /\
     process_all env patterns files = (invoices, out1) /\
     create_excel env config invoices = (wb, out2) /\
     run_setup env config patterns []
     = ((([] ++ [EProcessing (List.length files)]) ++ out1) ++ out2,
        Ok (Ready wb (now_stamp env)
              (path_join (EXCEL_DIR config)
                 ("invoices_" ++ now_stamp env ++ ".xlsx"))))%list).
Proof.
  unfold run_setup, setup_fails.
  destruct (path_exists env (PDF_DIR config)) eqn:Ee; cbn [negb]; run_try.
  2: { left. split; [now left|]. left. reflexivity. }
  destruct (path_mkdir env (EXCEL_DIR config)) as [[]|e] eqn:Em.
  2: { left. split; [right; left; eauto|]. right; right. eauto. }
  destruct (path_glob env (PDF_DIR config)) as [files|e] eqn:Eg.
  2: { left. split; [right; right; left; eauto|]. right; right. eauto. }
  destruct files as [|f files].
  { left. split; [right; right; right; reflexivity|]. right; left. reflexivity. }
  right. split.
  - intros [H|[[e H]|[[e H]|H]]]; discriminate.
  - destruct (process_all env patterns (f :: files)) as [invoices out1] eqn:E1.
    destruct (create_excel env config invoices) as [wb out2] eqn:E2.
    exists (f :: files), invoices, out1, wb, out2. cbn [fst snd]. auto.
Qed.

Lemma run_false_iff (env : Env) (config : Config) (patterns : PatternSets) :
  snd (run env config patterns) = Ok false <-> setup_fails env config.
Proof.
  unfold run.
  destruct (run_setup_cases env config patterns)
    as [(Hf & [S|[S|[e S]]])|(Hn & files & invoices & out1 & wb & out2 & _ & _ & _ & S)];
    rewrite S; cbn [fst snd app]; try tauto.
  split; [|tauto]. intros H. now apply run_save_not_false in H.
Qed.

(** X17. [run] returns [False] exactly when its first block ends the run
    early: the PDF directory does not exist, making the output directory
    or listing the files raises, or there is no PDF.  It then prints one
    line, reads no file and never calls [save]. *)
Theorem run_false_iff_setup_fails (env : Env) (config : Config)
    (patterns : PatternSets) :
  (snd (run env config patterns) = Ok false <-> setup_fails env config) /\
  (setup_fails env config ->
   fst (run env config patterns) = [EPdfDirMissing (PDF_DIR config)] \/
   fst (run env config patterns) = [ENoPdf] \/
   exists e, fst (run env config patterns) = [EProcessError e]).
Proof.
  unfold run.
  destruct (run_setup_cases env config patterns)
    as [(Hf & [S|[S|[e S]]])|(Hn & files & invoices & out1 & wb & out2 & _ & _ & _ & S)];
    rewrite S; cbn [fst snd app].
  - split; [tauto|]. intros _. now left.
  - split; [tauto|]. intros _. right; now left.
  - split; [tauto|]. intros _. right; right. eauto.
  - split; [|tauto]. split; [|tauto].
    intros H. now apply run_save_not_false in H.
Qed.

Lemma run_false_iff_setup_fails_witness :
  fst (run (mkEnv (fun _ => true) (fun _ => Ok tt) (fun _ => Ok [])
             sample_pages (fun _ => None) "20240102_030405" (fun _ _ => Ok tt))
           default_config source_patterns) = [EPdfDirMissing (PDF_DIR default_config)] \/
  fst (run (mkEnv (fun _ => true) (fun _ => Ok tt) (fun _ => Ok [])
             sample_pages (fun _ => None) "20240102_030405" (fun _ _ => Ok tt))
           default_config source_patterns) = [ENoPdf] \/
  exists e,
    fst (run (mkEnv (fun _ => true) (fun _ => Ok tt) (fun _ => Ok [])
               sample_pages (fun _ => None) "20240102_030405" (fun _ _ => Ok tt))
             default_config source_patterns) = [EProcessError e].
Proof.
  apply (proj2 (run_false_iff_setup_fails
                  (mkEnv (fun _ => true) (fun _ => Ok tt) (fun _ => Ok [])
                     sample_pages (fun _ => None) "20240102_030405"
                     (fun _ _ => Ok tt))
                  default_config source_patterns)).
  right; right; right. reflexivity.
Defined.



(** X19. [main] prints [Falhou!] exactly when the first block of [run]
    ends the run early, and [Concluido!] exactly when [run] returns
    [True]; an exception of [run] leaves [main] with neither line, and
    [main] never prints both. *)
Theorem main_outcome (env : Env) :
  (In MFailed (fst (main env)) <-> setup_fails env default_config) /\
  (In MDone (fst (main env)) <->
   snd (run env default_config source_patterns) = Ok true) /\
  (forall e, snd (main env) = Raise e <->
             snd (run env default_config source_patterns) = Raise e) /\
  (snd (main env) = Ok tt <->
   In MDone (fst (main env)) \/ In MFailed (fst (main env))) /\
  ~ (In MDone (fst (main env)) /\ In MFailed (fst (main env))).
Proof.
  rewrite <- (run_false_iff env default_config source_patterns).
  unfold main.
  destruct (run env default_config source_patterns) as [out r].
  assert (N : forall x, (x = MDone \/ x = MFailed) -> ~ In x (MBanner :: map MRun out)).
  { intros x Hx [H|H]; [destruct Hx; congruence|].
    apply in_map_iff in H as (ev & <- & _). destruct Hx; discriminate. }
  pose proof (N MDone (or_introl eq_refl)) as Nd.
  pose proof (N MFailed (or_intror eq_refl)) as Nf.
  cbn [In] in Nd, Nf.
  destruct r as [[|]|e]; cbn [fst snd]; rewrite ?in_app_iff; cbn [In];
    (split; [|split; [|split; [intros e'|split]]]);
    try solve [split; intros; intuition (discriminate || congruence)];
    try solve [intros; intuition (discriminate || congruence)];
    try solve [split; intros; auto; intuition (discriminate || congruence)].
Qed.

Lemma find_pattern_stops (text : string) (ps qs : list regex) :
  existsb (fun p => match re_search p text with Some _ => true | None => false end) ps
  = true ->
  find_pattern text (ps ++ qs) = find_pattern text ps.
Proof.
  induction ps as [|p ps IH]; cbn [existsb app find_pattern]; [discriminate|].
  destruct (re_search p text); [reflexivity|]. exact IH.
Qed.

(** X20. Patterns are tried in the order of the list and the first that
    matches decides: when a pattern of [ps] matches, the patterns added
    after [ps] are never consulted, and when none of [ps] matches the
    result is that of the added patterns alone. *)
Theorem find_pattern_app (text : string) (ps qs : list regex) :
  find_pattern text (ps ++ qs)
  = if existsb (fun p => match re_search p text with
                         | Some _ => true
                         | None => false
                         end) ps
    then find_pattern text ps
    else find_pattern text qs.
Proof.
  destruct (existsb _ ps) eqn:E.
  - now apply find_pattern_stops.
  - apply find_pattern_skip. apply List.Forall_forall. intros q Hq.
    destruct (re_search q text) eqn:Eq; [|reflexivity].
    assert (X : existsb (fun p => match re_search p text with
                                  | Some _ => true | None => false end) ps = true).
    { apply existsb_exists. exists q. now rewrite Eq. }
    congruence.
Qed.

Lemma processed_record_cells_witness :
  "100" <> EmptyString /\ str_forall is_digit "100" = true /\
  occurs "100" (fst (extract_text sample_env ["in"; "a.pdf"])).
Proof.
  apply (proj1 (proj2 (proj2 (proj2
           (processed_record_cells sample_env ["in"; "a.pdf"])))) "100").
  vm_compute. reflexivity.
Defined.
